(** * Complaint portal: schema, row-level policies and client gateway

    A shallow embedding of the portal's database migration (tables, the
    [has_role] predicate, the sign-up trigger, the row-level policies on the
    tables and on the blob store) and of the two client operations that talk
    to it: [handleSubmit] of the complaint dialog and the [queryFn] of the
    dashboard.

    Rows are records, tables are lists of rows in insertion order, a statement
    either yields the next database or an SQL error, and the acting session is
    passed explicitly to every statement. *)

From stdpp Require Import base list strings pretty sorting.
From Stdlib Require Import ZArith.
From Stdlib Require Import Ascii.

Open Scope Z_scope.

(** ** Column types *)

(** A UUID is carried as its canonical text, which is also how the client
    sees it and what [auth.uid()::text] yields. *)
Definition uuid := string.

(** [TIMESTAMPTZ]: microseconds since the epoch. *)
Definition timestamptz := Z.

(** [CREATE TYPE public.app_role AS ENUM ('student', 'admin')] *)
Inductive app_role := student | admin.

(** [CREATE TYPE public.complaint_status AS ENUM (...)] *)
Inductive complaint_status := new | in_progress | resolved | closed.

(** [CREATE TYPE public.complaint_priority AS ENUM (...)] *)
Inductive complaint_priority := low | medium | high | urgent.

#[global] Instance app_role_eq_dec : EqDecision app_role.
Proof. solve_decision. Defined.
#[global] Instance complaint_status_eq_dec : EqDecision complaint_status.
Proof. solve_decision. Defined.
#[global] Instance complaint_priority_eq_dec : EqDecision complaint_priority.
Proof. solve_decision. Defined.

(** A value stored under a key of a [jsonb] object, as far as the [->>]
    operator can tell values apart: JSON null, a JSON string, or any other
    value together with its text rendering. *)
Inductive jsonb_value :=
  | JNull
  | JString (s : string)
  | JOther (text : string).

Definition jsonb := list (string * jsonb_value).

(** [obj ->> key]: the value as text, SQL NULL when the object is NULL, the
    key is absent or the value is JSON null. *)
Fixpoint jsonb_lookup (obj : jsonb) (key : string) : option jsonb_value :=
  match obj with
  | [] => None
  | (k, v) :: obj' => if bool_decide (k = key) then Some v else jsonb_lookup obj' key
  end.

Definition jsonb_get_text (obj : option jsonb) (key : string) : option string :=
  match obj with
  | None => None
  | Some o =>
      match jsonb_lookup o key with
      | Some (JString s) => Some s
      | Some (JOther t) => Some t
      | Some JNull | None => None
      end
  end.

(** ** Rows *)

(** [auth.users], reduced to the two columns the migration reads. *)
Record auth_user := {
  u_id : uuid;
  raw_user_meta_data : option jsonb;
}.

Record user_role := {
  ur_id : uuid;
  ur_user_id : uuid;
  ur_role : app_role;
  ur_created_at : timestamptz;
}.

Record profile := {
  p_id : uuid;
  full_name : option string;
  avatar_url : option string;
  phone : option string;
  department : option string;
  batch : option string;
  p_created_at : timestamptz;
  p_updated_at : timestamptz;
}.

Record complaint := {
  c_id : uuid;
  c_user_id : uuid;
  title : string;
  description : string;
  category : string;
  status : complaint_status;
  priority : complaint_priority;
  is_anonymous : bool;
  assigned_to : option uuid;
  upvotes : Z;
  c_created_at : timestamptz;
  c_updated_at : timestamptz;
}.

Record complaint_attachment := {
  a_id : uuid;
  a_complaint_id : uuid;
  file_name : string;
  file_url : string;
  file_size : Z;
  file_type : string;
  a_created_at : timestamptz;
}.

Record status_history_entry := {
  h_id : uuid;
  h_complaint_id : uuid;
  h_status : complaint_status;
  changed_by : uuid;
  notes : option string;
  h_created_at : timestamptz;
}.

Record admin_note := {
  n_id : uuid;
  n_complaint_id : uuid;
  admin_id : uuid;
  note : string;
  n_created_at : timestamptz;
}.

(** [storage.objects], reduced to the columns the storage policies read. *)
Record storage_object := {
  bucket_id : string;
  name : string;
  owner : option uuid;
}.

(** ** The database *)

Record database := {
  users : list auth_user;
  profiles : list profile;
  user_roles : list user_role;
  complaints : list complaint;
  complaint_attachments : list complaint_attachment;
  complaint_status_history : list status_history_entry;
  admin_notes : list admin_note;
  objects : list storage_object;
}.

Definition empty_database : database :=
  {| users := []; profiles := []; user_roles := []; complaints := [];
     complaint_attachments := []; complaint_status_history := [];
     admin_notes := []; objects := [] |}.

Definition with_users (l : list auth_user) (db : database) : database :=
  {| users := l; profiles := profiles db; user_roles := user_roles db;
     complaints := complaints db;
     complaint_attachments := complaint_attachments db;
     complaint_status_history := complaint_status_history db;
     admin_notes := admin_notes db; objects := objects db |}.

Definition with_profiles (l : list profile) (db : database) : database :=
  {| users := users db; profiles := l; user_roles := user_roles db;
     complaints := complaints db;
     complaint_attachments := complaint_attachments db;
     complaint_status_history := complaint_status_history db;
     admin_notes := admin_notes db; objects := objects db |}.

Definition with_user_roles (l : list user_role) (db : database) : database :=
  {| users := users db; profiles := profiles db; user_roles := l;
     complaints := complaints db;
     complaint_attachments := complaint_attachments db;
     complaint_status_history := complaint_status_history db;
     admin_notes := admin_notes db; objects := objects db |}.

Definition with_complaints (l : list complaint) (db : database) : database :=
  {| users := users db; profiles := profiles db; user_roles := user_roles db;
     complaints := l;
     complaint_attachments := complaint_attachments db;
     complaint_status_history := complaint_status_history db;
     admin_notes := admin_notes db; objects := objects db |}.

Definition with_complaint_attachments (l : list complaint_attachment)
    (db : database) : database :=
  {| users := users db; profiles := profiles db; user_roles := user_roles db;
     complaints := complaints db;
     complaint_attachments := l;
     complaint_status_history := complaint_status_history db;
     admin_notes := admin_notes db; objects := objects db |}.

Definition with_complaint_status_history (l : list status_history_entry)
    (db : database) : database :=
  {| users := users db; profiles := profiles db; user_roles := user_roles db;
     complaints := complaints db;
     complaint_attachments := complaint_attachments db;
     complaint_status_history := l;
     admin_notes := admin_notes db; objects := objects db |}.

Definition with_admin_notes (l : list admin_note) (db : database) : database :=
  {| users := users db; profiles := profiles db; user_roles := user_roles db;
     complaints := complaints db;
     complaint_attachments := complaint_attachments db;
     complaint_status_history := complaint_status_history db;
     admin_notes := l; objects := objects db |}.

Definition with_objects (l : list storage_object) (db : database) : database :=
  {| users := users db; profiles := profiles db; user_roles := user_roles db;
     complaints := complaints db;
     complaint_attachments := complaint_attachments db;
     complaint_status_history := complaint_status_history db;
     admin_notes := admin_notes db; objects := l |}.

(** ** Statement results *)

(** The SQL errors the schema can raise, by their condition name, and the
    blob store's refusal of a payload. *)
Inductive error :=
  | insufficient_privilege            (* 42501: row-level security *)
  | unique_violation (constraint : string)       (* 23505 *)
  | foreign_key_violation (constraint : string)  (* 23503 *)
  | numeric_value_out_of_range        (* 22003 *)
  | invalid_text_representation       (* 22P02 *)
  | payload_rejected                  (* blob store size/type limit *)
  | resource_already_exists.          (* blob store name collision *)

Inductive outcome (A : Type) :=
  | Ok (a : A)
  | Err (e : error).
Arguments Ok {A} a.
Arguments Err {A} e.

#[global] Instance outcome_ret : MRet outcome := fun A a => Ok a.

#[global] Instance outcome_bind : MBind outcome := fun A B k m =>
  match m with
  | Ok a => k a
  | Err e => Err e
  end.

Definition guard (b : bool) (e : error) : outcome unit :=
  if b then Ok tt else Err e.

(** ** Sessions *)

(** A request reaches the database either without a login ([anon]) or with
    the JWT of an account ([authenticated], [auth.uid()] being its subject). *)
Inductive session :=
  | Anon
  | Authenticated (sub : uuid).

Definition auth_uid (s : session) : option uuid :=
  match s with
  | Anon => None
  | Authenticated sub => Some sub
  end.

(** The [TO authenticated] clause of a policy. *)
Definition to_authenticated (s : session) : bool :=
  match s with
  | Anon => false
  | Authenticated _ => true
  end.

(** SQL [=] between a possibly-NULL value and a column: NULL is not true. *)
Definition sql_eq {A} `{EqDecision A} (x : option A) (y : A) : bool :=
  match x with
  | Some x' => bool_decide (x' = y)
  | None => false
  end.

(** ** [public.has_role]

    [SECURITY DEFINER]: the body runs as the function's owner, who also owns
    [user_roles]; row-level security is enabled on that table but not forced,
    so the owner's scan is over the stored rows and evaluates no policy. *)
Definition has_role (db : database) (_user_id : option uuid) (_role : app_role)
    : bool :=
  existsb
    (fun row => sql_eq _user_id (ur_user_id row)
                && bool_decide (ur_role row = _role))
    (user_roles db).

(** ** Statements run with the table owner's rights

    These apply the column defaults' results and the table constraints only:
    primary keys, the [UNIQUE(user_id, role)] constraint and the foreign
    keys. They are what a [SECURITY DEFINER] body executes, and what a
    session's statement becomes once the row-level policies have let it
    through. Values that a [DEFAULT] would draw ([gen_random_uuid()],
    [now()]) are already part of the row handed in. *)

Definition table_insert_user (db : database) (row : auth_user)
    : outcome database :=
  _ ← guard (bool_decide (u_id row ∉ u_id <$> users db))
        (unique_violation "users_pkey");
  Ok (with_users (users db ++ [row]) db).

Definition table_insert_profile (db : database) (row : profile)
    : outcome database :=
  _ ← guard (bool_decide (p_id row ∉ p_id <$> profiles db))
        (unique_violation "profiles_pkey");
  _ ← guard (bool_decide (p_id row ∈ u_id <$> users db))
        (foreign_key_violation "profiles_id_fkey");
  Ok (with_profiles (profiles db ++ [row]) db).

(** The pair that [UNIQUE(user_id, role)] constrains. *)
Definition role_key (row : user_role) : uuid * app_role :=
  (ur_user_id row, ur_role row).

Definition table_insert_user_role (db : database) (row : user_role)
    : outcome database :=
  _ ← guard (bool_decide (ur_id row ∉ ur_id <$> user_roles db))
        (unique_violation "user_roles_pkey");
  _ ← guard (bool_decide (role_key row ∉ role_key <$> user_roles db))
        (unique_violation "user_roles_user_id_role_key");
  _ ← guard (bool_decide (ur_user_id row ∈ u_id <$> users db))
        (foreign_key_violation "user_roles_user_id_fkey");
  Ok (with_user_roles (user_roles db ++ [row]) db).

(** A nullable reference is satisfied by NULL. *)
Definition references_user (db : database) (ref : option uuid) : bool :=
  match ref with
  | None => true
  | Some id => bool_decide (id ∈ u_id <$> users db)
  end.

Definition table_insert_complaint (db : database) (row : complaint)
    : outcome database :=
  _ ← guard (bool_decide (c_id row ∉ c_id <$> complaints db))
        (unique_violation "complaints_pkey");
  _ ← guard (bool_decide (c_user_id row ∈ u_id <$> users db))
        (foreign_key_violation "complaints_user_id_fkey");
  _ ← guard (references_user db (assigned_to row))
        (foreign_key_violation "complaints_assigned_to_fkey");
  Ok (with_complaints (complaints db ++ [row]) db).

Definition table_insert_complaint_attachment (db : database)
    (row : complaint_attachment) : outcome database :=
  _ ← guard (bool_decide (a_id row ∉ a_id <$> complaint_attachments db))
        (unique_violation "complaint_attachments_pkey");
  _ ← guard (bool_decide (a_complaint_id row ∈ c_id <$> complaints db))
        (foreign_key_violation "complaint_attachments_complaint_id_fkey");
  Ok (with_complaint_attachments (complaint_attachments db ++ [row]) db).

Definition table_insert_status_history (db : database)
    (row : status_history_entry) : outcome database :=
  _ ← guard (bool_decide (h_id row ∉ h_id <$> complaint_status_history db))
        (unique_violation "complaint_status_history_pkey");
  _ ← guard (bool_decide (h_complaint_id row ∈ c_id <$> complaints db))
        (foreign_key_violation "complaint_status_history_complaint_id_fkey");
  _ ← guard (bool_decide (changed_by row ∈ u_id <$> users db))
        (foreign_key_violation "complaint_status_history_changed_by_fkey");
  Ok (with_complaint_status_history (complaint_status_history db ++ [row]) db).

Definition table_insert_admin_note (db : database) (row : admin_note)
    : outcome database :=
  _ ← guard (bool_decide (n_id row ∉ n_id <$> admin_notes db))
        (unique_violation "admin_notes_pkey");
  _ ← guard (bool_decide (n_complaint_id row ∈ c_id <$> complaints db))
        (foreign_key_violation "admin_notes_complaint_id_fkey");
  _ ← guard (bool_decide (admin_id row ∈ u_id <$> users db))
        (foreign_key_violation "admin_notes_admin_id_fkey");
  Ok (with_admin_notes (admin_notes db ++ [row]) db).

(** ** Triggers *)

(** The row of [INSERT INTO public.profiles (id, full_name) VALUES (..)]:
    the columns not listed take their defaults. *)
Definition profiles_values (id : uuid) (full_name : option string)
    (now : timestamptz) : profile :=
  {| p_id := id; full_name := full_name; avatar_url := None; phone := None;
     department := None; batch := None; p_created_at := now;
     p_updated_at := now |}.

(** The row of [INSERT INTO public.user_roles (user_id, role) VALUES (..)];
    [rid] is the identifier [gen_random_uuid()] draws. *)
Definition user_roles_values (rid user_id : uuid) (role : app_role)
    (now : timestamptz) : user_role :=
  {| ur_id := rid; ur_user_id := user_id; ur_role := role;
     ur_created_at := now |}.

(** [public.handle_new_user], fired [AFTER INSERT ON auth.users FOR EACH ROW].
    [now] is the statement's [now()]. An error raised by either insert leaves
    the function, and with it the statement that fired the trigger. *)
Definition handle_new_user (db : database) (NEW : auth_user) (rid : uuid)
    (now : timestamptz) : outcome database :=
  db ← table_insert_profile db
         (profiles_values (u_id NEW)
            (jsonb_get_text (raw_user_meta_data NEW) "full_name") now);
  db ← table_insert_user_role db (user_roles_values rid (u_id NEW) student now);
  Ok db.

(** The identity provider's [INSERT INTO auth.users] together with the
    [on_auth_user_created] trigger: one statement, so the database changes
    only if every step returned. *)
Definition on_auth_user_created (db : database) (NEW : auth_user) (rid : uuid)
    (now : timestamptz) : outcome database :=
  db ← table_insert_user db NEW;
  handle_new_user db NEW rid now.

(** Rows that carry an [updated_at] column. *)
Class HasUpdatedAt (A : Type) := set_updated_at : timestamptz → A → A.

#[global] Instance profile_updated_at : HasUpdatedAt profile := fun t p =>
  {| p_id := p_id p; full_name := full_name p; avatar_url := avatar_url p;
     phone := phone p; department := department p; batch := batch p;
     p_created_at := p_created_at p; p_updated_at := t |}.

#[global] Instance complaint_updated_at : HasUpdatedAt complaint := fun t c =>
  {| c_id := c_id c; c_user_id := c_user_id c; title := title c;
     description := description c; category := category c;
     status := status c; priority := priority c;
     is_anonymous := is_anonymous c; assigned_to := assigned_to c;
     upvotes := upvotes c; c_created_at := c_created_at c;
     c_updated_at := t |}.

(** [public.update_updated_at_column], fired [BEFORE UPDATE] on [profiles]
    and on [complaints]. *)
Definition update_updated_at_column {A} `{HasUpdatedAt A} (now : timestamptz)
    (NEW : A) : A :=
  set_updated_at now NEW.

(** ** Row-level policies

    Every policy is [TO authenticated]; the policies of one table and command
    are permissive, so they are combined with [||]. A policy declared with
    [USING] only uses that expression as its [WITH CHECK] as well. *)

Module Policy.

(** "Users can view all profiles" *)
Definition users_can_view_all_profiles (s : session) (row : profile) : bool :=
  to_authenticated s && true.

(** "Users can update own profile" *)
Definition users_can_update_own_profile (s : session) (row : profile) : bool :=
  to_authenticated s && sql_eq (auth_uid s) (p_id row).

(** "Anyone can view user roles" *)
Definition anyone_can_view_user_roles (s : session) (row : user_role) : bool :=
  to_authenticated s && true.

(** "Only admins can manage roles", [FOR ALL] *)
Definition only_admins_can_manage_roles (s : session) (db : database)
    (row : user_role) : bool :=
  to_authenticated s && has_role db (auth_uid s) admin.

(** "Anyone can view complaints" *)
Definition anyone_can_view_complaints (s : session) (row : complaint) : bool :=
  to_authenticated s && true.

(** "Users can create complaints" *)
Definition users_can_create_complaints (s : session) (row : complaint) : bool :=
  to_authenticated s && sql_eq (auth_uid s) (c_user_id row).

(** "Users can update own complaints" *)
Definition users_can_update_own_complaints (s : session) (row : complaint)
    : bool :=
  to_authenticated s && sql_eq (auth_uid s) (c_user_id row).

(** "Admins can update any complaint" *)
Definition admins_can_update_any_complaint (s : session) (db : database)
    (row : complaint) : bool :=
  to_authenticated s && has_role db (auth_uid s) admin.

(** "Anyone can view attachments" *)
Definition anyone_can_view_attachments (s : session)
    (row : complaint_attachment) : bool :=
  to_authenticated s && true.

(** "Users can add attachments to own complaints" *)
Definition users_can_add_attachments_to_own_complaints (s : session)
    (db : database) (row : complaint_attachment) : bool :=
  to_authenticated s
  && existsb
       (fun c => bool_decide (c_id c = a_complaint_id row)
                 && sql_eq (auth_uid s) (c_user_id c))
       (complaints db).

(** "Anyone can view status history" *)
Definition anyone_can_view_status_history (s : session)
    (row : status_history_entry) : bool :=
  to_authenticated s && true.

(** "Admins can add status history" *)
Definition admins_can_add_status_history (s : session) (db : database)
    (row : status_history_entry) : bool :=
  to_authenticated s && has_role db (auth_uid s) admin.

(** "Only admins can view admin notes" *)
Definition only_admins_can_view_admin_notes (s : session) (db : database)
    (row : admin_note) : bool :=
  to_authenticated s && has_role db (auth_uid s) admin.

(** "Only admins can create admin notes" *)
Definition only_admins_can_create_admin_notes (s : session) (db : database)
    (row : admin_note) : bool :=
  to_authenticated s
  && (has_role db (auth_uid s) admin && sql_eq (auth_uid s) (admin_id row)).

End Policy.

(** ** Text helpers *)

(** The pieces of [s] between occurrences of [sep]; never empty. This is both
    JavaScript's [s.split(sep)] and, but for the empty string (see
    [foldername]), SQL's [string_to_array(s, sep)] for a one-character
    separator. *)
Fixpoint split (sep : Ascii.ascii) (s : string) : list string :=
  match s with
  | EmptyString => [EmptyString]
  | String c s' =>
      if Ascii.eqb c sep then EmptyString :: split sep s'
      else match split sep s' with
           | piece :: pieces => String c piece :: pieces
           | [] => [String c EmptyString]
           end
  end.

(** Whether the character [c] occurs in [s]. *)
Fixpoint occurs (c : Ascii.ascii) (s : string) : bool :=
  match s with
  | EmptyString => false
  | String c' s' => Ascii.eqb c' c || occurs c s'
  end.

(** ** The blob store *)

Module Storage.

(** [INSERT INTO storage.buckets ... VALUES ('complaint-attachments', ...)] *)
Definition attachments_bucket : string := "complaint-attachments".

(** Modelled from the spec: [storage.foldername] belongs to the storage
    platform and is not part of the migration. It yields the path segments
    of an object name without the last one (the file name), so that element
    [1] of its result is the object's first path segment, and NULL when the
    name has no folder. *)
Definition foldername (name : string) : list string :=
  removelast (split "/"%char name).

(** SQL array subscript [arr[1]]. *)
Definition first_element (arr : list string) : option string := head arr.

(** "Authenticated users can upload attachments" *)
Definition authenticated_users_can_upload_attachments (s : session)
    (row : storage_object) : bool :=
  to_authenticated s && bool_decide (bucket_id row = attachments_bucket).

(** "Authenticated users can view attachments" *)
Definition authenticated_users_can_view_attachments (s : session)
    (row : storage_object) : bool :=
  to_authenticated s && bool_decide (bucket_id row = attachments_bucket).

(** "Users can delete own attachments" *)
Definition users_can_delete_own_attachments (s : session)
    (row : storage_object) : bool :=
  to_authenticated s
  && (bool_decide (bucket_id row = attachments_bucket)
      && bool_decide (is_Some (auth_uid s)
                      ∧ auth_uid s = first_element (foldername (name row)))).

(** What the client hands to [upload]. *)
Module File.
Record t := { name : string; type : string; size : Z }.
End File.

(** [supabase.storage.from(bucket).upload(path, file)] without the upsert
    option. [accepts] is the blob store's own size and type limit, which the
    migration leaves at the platform's setting. The object row is written
    with the caller's session, hence under the insert policy. *)
Definition upload (accepts : File.t → bool) (s : session) (db : database)
    (bucket path : string) (file : File.t) : outcome database :=
  _ ← guard (accepts file) payload_rejected;
  let row := {| bucket_id := bucket; name := path; owner := auth_uid s |} in
  _ ← guard (authenticated_users_can_upload_attachments s row)
        insufficient_privilege;
  _ ← guard (bool_decide
               ((bucket, path) ∉ (fun o => (bucket_id o, name o)) <$> objects db))
        resource_already_exists;
  Ok (with_objects (objects db ++ [row]) db).

(** [supabase.storage.from(bucket).remove([path])]: a [DELETE] on
    [storage.objects] with the caller's session; rows the policies do not
    show to the caller are left in place. *)
Definition remove (s : session) (db : database) (bucket path : string)
    : database :=
  with_objects
    (filter
       (fun o => ¬ (bucket_id o = bucket ∧ name o = path
                    ∧ authenticated_users_can_view_attachments s o = true
                    ∧ users_can_delete_own_attachments s o = true))
       (objects db))
    db.

(** [getPublicUrl(path)] under the project's storage endpoint. *)
Definition getPublicUrl (endpoint bucket path : string) : string :=
  endpoint +:+ "/object/public/" +:+ bucket +:+ "/" +:+ path.

End Storage.

(** ** Statements run with a session's rights *)

Definition select_user_roles (s : session) (db : database) : list user_role :=
  filter (fun row => Policy.anyone_can_view_user_roles s row
                     || Policy.only_admins_can_manage_roles s db row = true)
    (user_roles db).

Definition select_complaints (s : session) (db : database) : list complaint :=
  filter (fun row => Policy.anyone_can_view_complaints s row = true)
    (complaints db).

Definition select_admin_notes (s : session) (db : database) : list admin_note :=
  filter (fun row => Policy.only_admins_can_view_admin_notes s db row = true)
    (admin_notes db).

Definition insert_user_role (s : session) (db : database) (row : user_role)
    : outcome database :=
  _ ← guard (Policy.only_admins_can_manage_roles s db row) insufficient_privilege;
  table_insert_user_role db row.

Definition insert_complaint (s : session) (db : database) (row : complaint)
    : outcome database :=
  _ ← guard (Policy.users_can_create_complaints s row) insufficient_privilege;
  table_insert_complaint db row.

Definition insert_complaint_attachment (s : session) (db : database)
    (row : complaint_attachment) : outcome database :=
  _ ← guard (Policy.users_can_add_attachments_to_own_complaints s db row)
        insufficient_privilege;
  table_insert_complaint_attachment db row.

Definition insert_status_history (s : session) (db : database)
    (row : status_history_entry) : outcome database :=
  _ ← guard (Policy.admins_can_add_status_history s db row)
        insufficient_privilege;
  table_insert_status_history db row.

Definition insert_admin_note (s : session) (db : database) (row : admin_note)
    : outcome database :=
  _ ← guard (Policy.only_admins_can_create_admin_notes s db row)
        insufficient_privilege;
  table_insert_admin_note db row.

(** An [UPDATE] visits the rows one after the other; [others] are the rows a
    key of the new version is compared with: the versions already written and
    the rows not yet visited. An error leaves the whole statement. *)
Fixpoint update_each {A} (f : list A → A → outcome A) (done todo : list A)
    : outcome (list A) :=
  match todo with
  | [] => Ok done
  | row :: rest =>
      row' ← f (done ++ rest) row;
      update_each f (done ++ [row']) rest
  end.

(** One row of [UPDATE public.complaints SET ... WHERE qual]. The row is
    touched if the caller may read it, one of the two update policies admits
    it and it meets [qual]; the new version, after the [BEFORE UPDATE]
    trigger, must again be admitted by one of the two policies. A changed
    primary key must not be referenced by a dependent row. *)
Definition update_complaint_row (s : session) (db : database)
    (now : timestamptz) (qual : complaint → bool)
    (assign : complaint → complaint) (others : list complaint)
    (OLD : complaint) : outcome complaint :=
  if Policy.anyone_can_view_complaints s OLD
     && (Policy.users_can_update_own_complaints s OLD
         || Policy.admins_can_update_any_complaint s db OLD)
     && qual OLD
  then
    let NEW := update_updated_at_column now (assign OLD) in
    _ ← guard (Policy.users_can_update_own_complaints s NEW
               || Policy.admins_can_update_any_complaint s db NEW)
          insufficient_privilege;
    _ ← guard (bool_decide (c_id NEW ∉ c_id <$> others))
          (unique_violation "complaints_pkey");
    _ ← guard (bool_decide (c_user_id NEW ∈ u_id <$> users db))
          (foreign_key_violation "complaints_user_id_fkey");
    _ ← guard (references_user db (assigned_to NEW))
          (foreign_key_violation "complaints_assigned_to_fkey");
    _ ← guard (bool_decide
                 (c_id NEW = c_id OLD
                  ∨ ((c_id OLD ∉ a_complaint_id <$> complaint_attachments db)
                     ∧ (c_id OLD ∉ h_complaint_id <$> complaint_status_history db)
                     ∧ (c_id OLD ∉ n_complaint_id <$> admin_notes db))))
          (foreign_key_violation "complaint_id_fkey");
    Ok NEW
  else Ok OLD.

Definition update_complaints (s : session) (db : database) (now : timestamptz)
    (qual : complaint → bool) (assign : complaint → complaint)
    : outcome database :=
  rows ← update_each (update_complaint_row s db now qual assign) []
           (complaints db);
  Ok (with_complaints rows db).

(** One row of [UPDATE public.profiles SET ... WHERE qual]. *)
Definition update_profile_row (s : session) (db : database)
    (now : timestamptz) (qual : profile → bool) (assign : profile → profile)
    (others : list profile) (OLD : profile) : outcome profile :=
  if Policy.users_can_view_all_profiles s OLD
     && Policy.users_can_update_own_profile s OLD
     && qual OLD
  then
    let NEW := update_updated_at_column now (assign OLD) in
    _ ← guard (Policy.users_can_update_own_profile s NEW)
          insufficient_privilege;
    _ ← guard (bool_decide (p_id NEW ∉ p_id <$> others))
          (unique_violation "profiles_pkey");
    _ ← guard (bool_decide (p_id NEW ∈ u_id <$> users db))
          (foreign_key_violation "profiles_id_fkey");
    Ok NEW
  else Ok OLD.

Definition update_profiles (s : session) (db : database) (now : timestamptz)
    (qual : profile → bool) (assign : profile → profile) : outcome database :=
  rows ← update_each (update_profile_row s db now qual assign) []
           (profiles db);
  Ok (with_profiles rows db).

(** One row of [UPDATE public.user_roles SET ... WHERE qual]; the only policy
    for the command is the [FOR ALL] one. *)
Definition update_user_role_row (s : session) (db : database)
    (qual : user_role → bool) (assign : user_role → user_role)
    (others : list user_role) (OLD : user_role) : outcome user_role :=
  if (Policy.anyone_can_view_user_roles s OLD
      || Policy.only_admins_can_manage_roles s db OLD)
     && Policy.only_admins_can_manage_roles s db OLD
     && qual OLD
  then
    let NEW := assign OLD in
    _ ← guard (Policy.only_admins_can_manage_roles s db NEW)
          insufficient_privilege;
    _ ← guard (bool_decide (ur_id NEW ∉ ur_id <$> others))
          (unique_violation "user_roles_pkey");
    _ ← guard (bool_decide (role_key NEW ∉ role_key <$> others))
          (unique_violation "user_roles_user_id_role_key");
    _ ← guard (bool_decide (ur_user_id NEW ∈ u_id <$> users db))
          (foreign_key_violation "user_roles_user_id_fkey");
    Ok NEW
  else Ok OLD.

Definition update_user_roles (s : session) (db : database)
    (qual : user_role → bool) (assign : user_role → user_role)
    : outcome database :=
  rows ← update_each (update_user_role_row s db qual assign) []
           (user_roles db);
  Ok (with_user_roles rows db).

(** [DELETE FROM public.user_roles WHERE qual]: rows the policies do not admit
    are left in place. *)
Definition delete_user_roles (s : session) (db : database)
    (qual : user_role → bool) : database :=
  with_user_roles
    (filter
       (fun row => ¬ ((Policy.anyone_can_view_user_roles s row
                       || Policy.only_admins_can_manage_roles s db row) = true
                      ∧ Policy.only_admins_can_manage_roles s db row = true
                      ∧ qual row = true))
       (user_roles db))
    db.

(** [DELETE FROM auth.users WHERE id = uid], issued by the identity provider:
    [ON DELETE CASCADE] removes the dependent rows, first those that
    reference the account, then those that reference a removed complaint;
    [assigned_to] is [ON DELETE SET NULL]. *)
Definition unassign (uid : uuid) (c : complaint) : complaint :=
  {| c_id := c_id c; c_user_id := c_user_id c; title := title c;
     description := description c; category := category c;
     status := status c; priority := priority c;
     is_anonymous := is_anonymous c;
     assigned_to := if bool_decide (assigned_to c = Some uid) then None
                    else assigned_to c;
     upvotes := upvotes c; c_created_at := c_created_at c;
     c_updated_at := c_updated_at c |}.

Definition delete_auth_user (db : database) (uid : uuid) : database :=
  let kept := filter (fun c => c_user_id c ≠ uid) (complaints db) in
  let live := c_id <$> kept in
  {| users := filter (fun u => u_id u ≠ uid) (users db);
     profiles := filter (fun p => p_id p ≠ uid) (profiles db);
     user_roles := filter (fun r => ur_user_id r ≠ uid) (user_roles db);
     complaints := unassign uid <$> kept;
     complaint_attachments :=
       filter (fun a => a_complaint_id a ∈ live) (complaint_attachments db);
     complaint_status_history :=
       filter (fun h => h_complaint_id h ∈ live ∧ changed_by h ≠ uid)
         (complaint_status_history db);
     admin_notes :=
       filter (fun n => n_complaint_id n ∈ live ∧ admin_id n ≠ uid)
         (admin_notes db);
     objects := objects db |}.

(** ** The client gateway *)

Module Client.

Import Storage.

(** The signed-in account as [useAuth] exposes it. *)
Record User := { id : uuid }.

(** A request of a signed-in client carries that account's JWT. *)
Definition session_of (user : User) : session := Authenticated (id user).

(** Values the database draws while it serves one insert:
    [gen_random_uuid()] for the primary key and [now()]. *)
Record drawn := { new_id : uuid; db_now : timestamptz }.

(** Text to [complaint_priority], as the server casts the request body. *)
Definition priority_of_text (t : string) : outcome complaint_priority :=
  if bool_decide (t = "low") then Ok low
  else if bool_decide (t = "medium") then Ok medium
  else if bool_decide (t = "high") then Ok high
  else if bool_decide (t = "urgent") then Ok urgent
  else Err invalid_text_representation.

(** A JSON number to the [INT] column it is stored in. *)
Definition int4_of_number (n : Z) : outcome Z :=
  if bool_decide (-2147483648 ≤ n ≤ 2147483647) then Ok n
  else Err numeric_value_out_of_range.

(** The dialog's form state. *)
Record form := {
  form_title : string;
  form_description : string;
  form_category : string;
  form_priority : string;
  isAnonymous : bool;
}.

(** [supabase.from("complaints").insert({...}).select().single()]: the new
    database and the row handed back. *)
Definition insert_complaint_returning (user : User) (f : form) (d : drawn)
    (db : database) : outcome (database * complaint) :=
  p ← priority_of_text (form_priority f);
  let row :=
    {| c_id := new_id d; c_user_id := id user; title := form_title f;
       description := form_description f; category := form_category f;
       status := new; priority := p; is_anonymous := isAnonymous f;
       assigned_to := None; upvotes := 0; c_created_at := db_now d;
       c_updated_at := db_now d |} in
  db ← insert_complaint (session_of user) db row;
  _ ← guard (Policy.anyone_can_view_complaints (session_of user) row)
        insufficient_privilege;
  Ok (db, row).

(** [supabase.from("complaint_attachments").insert({...})] *)
Definition insert_attachment_request (user : User) (db : database)
    (complaint_id file_name file_url file_type : string) (file_size : Z)
    (d : drawn) : outcome database :=
  size ← int4_of_number file_size;
  insert_complaint_attachment (session_of user) db
    {| a_id := new_id d; a_complaint_id := complaint_id;
       file_name := file_name; file_url := file_url; file_size := size;
       file_type := file_type; a_created_at := db_now d |}.

(** One file of the dialog together with what the environment yields while
    it is processed: the value of [Date.now()] and the database's draws for
    its attachment row. *)
Record upload_item := {
  file : File.t;
  date_now : N;
  row_drawn : drawn;
}.

(** [`${complaint.id}/${Date.now()}.${fileExt}`] with
    [fileExt = file.name.split(".").pop()]. *)
Definition fileExt (f : File.t) : string :=
  List.last (split "."%char (File.name f)) "".

Definition fileName (complaint : complaint) (it : upload_item) : string :=
  c_id complaint +:+ "/" +:+ pretty (date_now it) +:+ "." +:+ fileExt (file it).

(** The body of [for (const file of files)]. The result is the database
    after the loop stopped and the error thrown, if any. Only [uploadError]
    is inspected; the result of the attachment insert is awaited and
    dropped. *)
Fixpoint upload_loop (accepts : File.t → bool) (endpoint : string)
    (user : User) (complaint : complaint) (items : list upload_item)
    (db : database) : database * option error :=
  match items with
  | [] => (db, None)
  | it :: rest =>
      match upload accepts (session_of user) db attachments_bucket
              (fileName complaint it) (file it) with
      | Err uploadError => (db, Some uploadError)
      | Ok db1 =>
          let publicUrl :=
            getPublicUrl endpoint attachments_bucket (fileName complaint it) in
          let db2 :=
            match insert_attachment_request user db1 (c_id complaint)
                    (File.name (file it)) publicUrl (File.type (file it))
                    (File.size (file it)) (row_drawn it) with
            | Ok db' => db'
            | Err _ => db1
            end in
          upload_loop accepts endpoint user complaint rest db2
      end
  end.

(** The object and the attachment row that the loop writes for an item. *)
Definition object_of (user : User) (complaint : complaint)
    (it : upload_item) : storage_object :=
  {| bucket_id := attachments_bucket; name := fileName complaint it;
     owner := Some (id user) |}.

Definition row_of (endpoint : string) (complaint : complaint)
    (it : upload_item) : complaint_attachment :=
  {| a_id := new_id (row_drawn it); a_complaint_id := c_id complaint;
     file_name := File.name (file it);
     file_url := getPublicUrl endpoint attachments_bucket
                   (fileName complaint it);
     file_size := File.size (file it); file_type := File.type (file it);
     a_created_at := db_now (row_drawn it) |}.

(** What the dialog shows when [handleSubmit] is done. *)
Inductive toast :=
  | Silent
  | Success
  | Error (e : error).

(** [handleSubmit] of the complaint dialog. *)
Definition handleSubmit (accepts : File.t → bool) (endpoint : string)
    (user : option User) (f : form) (d : drawn) (files : list upload_item)
    (db : database) : database * toast :=
  match user with
  | None => (db, Silent)
  | Some user =>
      match insert_complaint_returning user f d db with
      | Err complaintError => (db, Error complaintError)
      | Ok (db1, complaint) =>
          match upload_loop accepts endpoint user complaint files db1 with
          | (db2, Some uploadError) => (db2, Error uploadError)
          | (db2, None) => (db2, Success)
          end
      end
  end.

(** The dashboard's request, as the query builder accumulates it:
    [.order("created_at", { ascending: false })] always, and
    [.eq("user_id", ...)] when added. *)
Record query := {
  eq_user_id : option uuid;
}.

(** [created_at] descending. *)
Definition newer_first (a b : complaint) : Prop :=
  c_created_at b ≤ c_created_at a.

#[global] Instance newer_first_dec a b : Decision (newer_first a b).
Proof. unfold newer_first. apply _. Defined.

Definition matches (q : query) (c : complaint) : bool :=
  match eq_user_id q with
  | Some uid => bool_decide (c_user_id c = uid)
  | None => true
  end.

(** The server's answer: rows the session may read, restricted by the
    [eq] filter, then ordered. The server promises no order among rows of
    equal [created_at]; the sort used here fixes one. *)
Definition run_query (s : session) (q : query) (db : database)
    : list complaint :=
  merge_sort newer_first
    (filter (fun c => matches q c = true) (select_complaints s db)).

(** Modelled from the spec: the [useAuth] hook is not among the sources at
    hand. Its [isAdmin] flag tells whether the signed-in account holds the
    admin role. *)
Definition useAuth_isAdmin (db : database) (user : User) : bool :=
  has_role db (Some (id user)) admin.

(** [queryFn] of the dashboard; [isAdmin] is the flag of [useAuth]. *)
Definition queryFn (user : option User) (isAdmin : bool) (db : database)
    : list complaint :=
  match user with
  | None => []
  | Some user =>
      let q := {| eq_user_id := None |} in
      let q := if negb isAdmin then {| eq_user_id := Some (id user) |}
               else q in
      run_query (session_of user) q db
  end.

End Client.

(** ** The statements as one transition system *)

(** Everything that writes to the database: the identity provider's two
    statements, the statements a session can send through the policies, the
    blob store's two operations and the dialog's submission. *)
Inductive command :=
  | SignUp (NEW : auth_user) (rid : uuid) (now : timestamptz)
  | DeleteAccount (uid : uuid)
  | InsertRole (row : user_role)
  | UpdateRoles (qual : user_role → bool) (assign : user_role → user_role)
  | DeleteRoles (qual : user_role → bool)
  | InsertComplaint (row : complaint)
  | UpdateComplaints (now : timestamptz) (qual : complaint → bool)
      (assign : complaint → complaint)
  | InsertAttachment (row : complaint_attachment)
  | InsertStatusHistory (row : status_history_entry)
  | InsertAdminNote (row : admin_note)
  | Upload (accepts : Storage.File.t → bool) (bucket path : string)
      (file : Storage.File.t)
  | Remove (bucket path : string)
  | Submit (accepts : Storage.File.t → bool) (endpoint : string)
      (f : Client.form) (d : Client.drawn) (files : list Client.upload_item)
  | UpdateProfiles (now : timestamptz) (qual : profile → bool)
      (assign : profile → profile).

Definition exec (s : session) (c : command) (db : database)
    : outcome database :=
  match c with
  | SignUp NEW rid now => on_auth_user_created db NEW rid now
  | DeleteAccount uid => Ok (delete_auth_user db uid)
  | InsertRole row => insert_user_role s db row
  | UpdateRoles qual assign => update_user_roles s db qual assign
  | DeleteRoles qual => Ok (delete_user_roles s db qual)
  | InsertComplaint row => insert_complaint s db row
  | UpdateComplaints now qual assign => update_complaints s db now qual assign
  | InsertAttachment row => insert_complaint_attachment s db row
  | InsertStatusHistory row => insert_status_history s db row
  | InsertAdminNote row => insert_admin_note s db row
  | Upload accepts bucket path file => Storage.upload accepts s db bucket path file
  | Remove bucket path => Ok (Storage.remove s db bucket path)
  | Submit accepts endpoint f d files =>
      Ok (fst (Client.handleSubmit accepts endpoint
                 (Client.Build_User <$> auth_uid s) f d files db))
  | UpdateProfiles now qual assign => update_profiles s db now qual assign
  end.

(** The database after a statement, committed or rolled back. *)
Definition after (s : session) (c : command) (db : database) : database :=
  match exec s c db with
  | Ok db' => db'
  | Err _ => db
  end.

(** Databases that a sequence of statements builds from the empty one. *)
Inductive reachable : database → Prop :=
  | reachable_empty : reachable empty_database
  | reachable_step s c db : reachable db → reachable (after s c db).

(** [UNIQUE(user_id, role)] as a property of the stored table. *)
Definition roles_unique (db : database) : Prop :=
  NoDup (role_key <$> user_roles db).

(** The number of role rows that carry a given pair. *)
Definition count_role (db : database) (uid : uuid) (r : app_role) : nat :=
  length (filter (fun row => role_key row = (uid, r)) (user_roles db)).

(** ** Sample data *)

Module Sample.

Import Storage Client.

Definition alice : uuid := "a11ce".
Definition bob : uuid := "b0b".
Definition root : uuid := "4d31".

Definition account (uid : uuid) (n : string) : auth_user :=
  {| u_id := uid; raw_user_meta_data := Some [("full_name", JString n)] |}.

Definition role_row (rid uid : uuid) (r : app_role) : user_role :=
  {| ur_id := rid; ur_user_id := uid; ur_role := r; ur_created_at := 0 |}.

Definition blank_profile (uid : uuid) (n : string) : profile :=
  {| p_id := uid; full_name := Some n; avatar_url := None; phone := None;
     department := None; batch := None; p_created_at := 0;
     p_updated_at := 0 |}.

(** Three accounts; [root] also holds the admin role. *)
Definition campus : database :=
  {| users := [account alice "Alice"; account bob "Bob"; account root "Root"];
     profiles := [blank_profile alice "Alice"; blank_profile bob "Bob";
                  blank_profile root "Root"];
     user_roles := [role_row "r1" alice student; role_row "r2" bob student;
                    role_row "r3" root student; role_row "r4" root admin];
     complaints := []; complaint_attachments := [];
     complaint_status_history := []; admin_notes := []; objects := [] |}.

Definition broken_ac (cid owner_id : uuid) (t : timestamptz) : complaint :=
  {| c_id := cid; c_user_id := owner_id; title := "Broken AC";
     description := "The AC in room 2 is broken"; category := "Facilities";
     status := new; priority := high; is_anonymous := false;
     assigned_to := None; upvotes := 0; c_created_at := t;
     c_updated_at := t |}.

(** [campus] with one complaint of Alice's and one of Bob's. *)
Definition campus_with_complaints : database :=
  with_complaints [broken_ac "c1" alice 10; broken_ac "c2" bob 20] campus.

Definition the_form : form :=
  {| form_title := "Broken AC";
     form_description := "The AC in room 2 is broken";
     form_category := "Facilities"; form_priority := "high";
     isAnonymous := false |}.

Definition photo : File.t :=
  {| File.name := "photo.png"; File.type := "image/png"; File.size := 2048 |}.

(** Two GiB: within what a JavaScript [File] reports, beyond [INT]. *)
Definition recording : File.t :=
  {| File.name := "lecture.mp4"; File.type := "video/mp4";
     File.size := 2147483648 |}.

Definition installer : File.t :=
  {| File.name := "setup.exe"; File.type := "application/x-msdownload";
     File.size := 4096 |}.

(** A blob store that refuses executables and nothing else. *)
Definition no_executables (f : File.t) : bool :=
  negb (bool_decide (File.type f = "application/x-msdownload")).

Definition item (f : File.t) (t : N) (aid : uuid) : upload_item :=
  {| file := f; date_now := t; row_drawn := {| new_id := aid; db_now := 31 |} |}.

Definition endpoint : string := "https://portal.example/storage/v1".

Definition complaint_draw : drawn := {| new_id := "c9"; db_now := 30 |}.

Definition carol : auth_user := account "ca401" "Carol".

(** [SET user_id = uid] *)
Definition hand_over (uid : uuid) (c : complaint) : complaint :=
  {| c_id := c_id c; c_user_id := uid; title := title c;
     description := description c; category := category c;
     status := status c; priority := priority c;
     is_anonymous := is_anonymous c; assigned_to := assigned_to c;
     upvotes := upvotes c; c_created_at := c_created_at c;
     c_updated_at := c_updated_at c |}.

(** [SET status = st] *)
Definition set_status (st : complaint_status) (c : complaint) : complaint :=
  {| c_id := c_id c; c_user_id := c_user_id c; title := title c;
     description := description c; category := category c;
     status := st; priority := priority c;
     is_anonymous := is_anonymous c; assigned_to := assigned_to c;
     upvotes := upvotes c; c_created_at := c_created_at c;
     c_updated_at := c_updated_at c |}.

(** [WHERE id = cid] *)
Definition by_id (cid : uuid) (c : complaint) : bool :=
  bool_decide (c_id c = cid).

Definition taken_in_hand (author : uuid) : status_history_entry :=
  {| h_id := "h1"; h_complaint_id := "c1"; h_status := in_progress;
     changed_by := author; notes := Some "assigned to facilities";
     h_created_at := 40 |}.

Definition triage_note (author : uuid) : admin_note :=
  {| n_id := "n1"; n_complaint_id := "c1"; admin_id := author;
     note := "call the contractor"; n_created_at := 41 |}.

End Sample.


(** ** Rows can be compared *)

#[global] Instance jsonb_value_eq_dec : EqDecision jsonb_value.
Proof. solve_decision. Defined.
#[global] Instance auth_user_eq_dec : EqDecision auth_user.
Proof. solve_decision. Defined.
#[global] Instance user_role_eq_dec : EqDecision user_role.
Proof. solve_decision. Defined.
#[global] Instance profile_eq_dec : EqDecision profile.
Proof. solve_decision. Defined.
#[global] Instance complaint_eq_dec : EqDecision complaint.
Proof. solve_decision. Defined.
#[global] Instance complaint_attachment_eq_dec : EqDecision complaint_attachment.
Proof. solve_decision. Defined.
#[global] Instance status_history_entry_eq_dec :
  EqDecision status_history_entry.
Proof. solve_decision. Defined.
#[global] Instance admin_note_eq_dec : EqDecision admin_note.
Proof. solve_decision. Defined.
#[global] Instance storage_object_eq_dec : EqDecision storage_object.
Proof. solve_decision. Defined.


(** ** The dialog's file list *)

Module Dialog.

Import Storage.

(** [l.filter((_, i) => keep(i))], [i] counting from [from]. *)
Fixpoint filter_index {A} (keep : nat → bool) (from : nat) (l : list A)
    : list A :=
  match l with
  | [] => []
  | x :: l' =>
      if keep from then x :: filter_index keep (S from) l'
      else filter_index keep (S from) l'
  end.

(** [removeFile]: [setFiles(files.filter((_, i) => i !== index))]. *)
Definition removeFile (files : list File.t) (index : nat) : list File.t :=
  filter_index (fun i => negb (Nat.eqb i index)) 0 files.

(** [handleFileChange]: [if (e.target.files) setFiles(Array.from(..))];
    [picked] is [e.target.files]. *)
Definition handleFileChange (files : list File.t)
    (picked : option (list File.t)) : list File.t :=
  match picked with
  | Some chosen => chosen
  | None => files
  end.

(** [CATEGORIES] *)
Definition CATEGORIES : list string :=
  ["Infrastructure"; "Teaching Quality"; "Facilities"; "Administration";
   "Safety"; "Other"].

(** [PRIORITIES], as pairs of [value] and [label]. *)
Definition PRIORITIES : list (string * string) :=
  [("low", "Low"); ("medium", "Medium"); ("high", "High")].

End Dialog.

(** [pieces.join(sep)] *)
Definition join (sep : Ascii.ascii) (pieces : list string) : string :=
  String.concat (String sep EmptyString) pieces.

(** ** What a statement is allowed to touch *)

(** The condition under which [UPDATE public.complaints] rewrites a row. *)
Definition complaint_update_touches (s : session) (db : database)
    (qual : complaint → bool) (OLD : complaint) : bool :=
  Policy.anyone_can_view_complaints s OLD
  && (Policy.users_can_update_own_complaints s OLD
      || Policy.admins_can_update_any_complaint s db OLD)
  && qual OLD.

(** The condition under which [UPDATE public.profiles] rewrites a row. *)
Definition profile_update_touches (s : session) (qual : profile → bool)
    (OLD : profile) : bool :=
  Policy.users_can_view_all_profiles s OLD
  && Policy.users_can_update_own_profile s OLD
  && qual OLD.

(** The two statements of the identity provider, which do not run with the
    session's rights. *)
Definition by_identity_provider (c : command) : bool :=
  match c with
  | SignUp _ _ _ | DeleteAccount _ => true
  | _ => false
  end.

(** ** Constraints as properties of the stored tables *)

(** Every [REFERENCES] clause of the migration. *)
Definition references_intact (db : database) : Prop :=
  (∀ p, p ∈ profiles db → p_id p ∈ u_id <$> users db)
  ∧ (∀ r, r ∈ user_roles db → ur_user_id r ∈ u_id <$> users db)
  ∧ (∀ c, c ∈ complaints db →
       c_user_id c ∈ u_id <$> users db
       ∧ references_user db (assigned_to c) = true)
  ∧ (∀ a, a ∈ complaint_attachments db →
       a_complaint_id a ∈ c_id <$> complaints db)
  ∧ (∀ h, h ∈ complaint_status_history db →
       h_complaint_id h ∈ c_id <$> complaints db
       ∧ changed_by h ∈ u_id <$> users db)
  ∧ (∀ n, n ∈ admin_notes db →
       n_complaint_id n ∈ c_id <$> complaints db
       ∧ admin_id n ∈ u_id <$> users db).

(** The name under which the blob store keeps an object. *)
Definition object_key (o : storage_object) : string * string :=
  (bucket_id o, name o).

(** Every [PRIMARY KEY] of the migration, and the blob store's one object
    per name. *)
Definition keys_unique (db : database) : Prop :=
  NoDup (u_id <$> users db)
  ∧ NoDup (p_id <$> profiles db)
  ∧ NoDup (ur_id <$> user_roles db)
  ∧ NoDup (c_id <$> complaints db)
  ∧ NoDup (a_id <$> complaint_attachments db)
  ∧ NoDup (h_id <$> complaint_status_history db)
  ∧ NoDup (n_id <$> admin_notes db)
  ∧ NoDup (object_key <$> objects db).

(** ** More sample data *)

Module Example.

Import Storage Client.

(** [Sample.campus] with one object stored under Alice's identifier and one
    stored under a complaint's. *)
Definition under_alice : storage_object :=
  {| bucket_id := "complaint-attachments"; name := "a11ce/notes.pdf";
     owner := Some Sample.alice |}.

Definition under_complaint : storage_object :=
  {| bucket_id := "complaint-attachments"; name := "c1/1700000000000.png";
     owner := Some Sample.alice |}.

Definition campus_with_objects : database :=
  with_objects [under_alice; under_complaint] Sample.campus_with_complaints.

Definition alice_user : User := {| id := Sample.alice |}.
Definition bob_user : User := {| id := Sample.bob |}.
Definition root_user : User := {| id := Sample.root |}.

(** [Sample.campus_with_complaints] with an attachment, a history entry and
    an admin note on Alice's complaint. *)
Definition campus_with_history : database :=
  with_admin_notes [Sample.triage_note Sample.root]
    (with_complaint_status_history [Sample.taken_in_hand Sample.root]
       (with_complaint_attachments
          [{| a_id := "a0"; a_complaint_id := "c1"; file_name := "ac.png";
              file_url := "https://portal.example/ac.png"; file_size := 10;
              file_type := "image/png"; a_created_at := 11 |}]
          Sample.campus_with_complaints)).

(** [SET id = cid] *)
Definition rename (cid : uuid) (c : complaint) : complaint :=
  {| c_id := cid; c_user_id := c_user_id c; title := title c;
     description := description c; category := category c;
     status := status c; priority := priority c;
     is_anonymous := is_anonymous c; assigned_to := assigned_to c;
     upvotes := upvotes c; c_created_at := c_created_at c;
     c_updated_at := c_updated_at c |}.

(** A form whose priority is none of the enumeration's values. *)
Definition odd_form : form :=
  {| form_title := "Broken AC";
     form_description := "The AC in room 2 is broken";
     form_category := "Facilities"; form_priority := "critical";
     isAnonymous := true |}.

(** A complaint of Alice's that she flagged anonymous. *)
Definition whisper : complaint :=
  {| c_id := "c3"; c_user_id := Sample.alice; title := "Unfair grading";
     description := "Grades were changed after the review";
     category := "Teaching Quality"; status := new; priority := medium;
     is_anonymous := true; assigned_to := None; upvotes := 0;
     c_created_at := 25; c_updated_at := 25 |}.

Definition scan : File.t :=
  {| File.name := "scan.png"; File.type := "image/png"; File.size := 1024 |}.

End Example.

(** * Properties *)

(** ** Reading the outcome of a statement *)

Lemma bind_Ok {A B} (m : outcome A) (k : A → outcome B) (b : B) :
  m ≫= k = Ok b ↔ ∃ a, m = Ok a ∧ k a = Ok b.
Proof.
  destruct m as [a|e]; simpl; split.
  - intros H. exists a. done.
  - intros (a' & Ha & Hk). by simplify_eq.
  - discriminate.
  - intros (a' & Ha & _). discriminate.
Qed.

Lemma guard_Ok (b : bool) (e : error) (u : unit) : guard b e = Ok u ↔ b = true.
Proof. destruct b, u; simpl; split; (done || discriminate). Qed.

Lemma guard_true (b : bool) (e : error) : b = true → guard b e = Ok tt.
Proof. by intros ->. Qed.

(** Splits a hypothesis [.. = Ok _] of a statement into the facts its guards
    established. *)
Ltac ok_inv H :=
  repeat match type of H with
    | _ ≫= _ = Ok _ =>
        let x := fresh "x" in
        let Hx := fresh "G" in
        apply bind_Ok in H as (x & Hx & H);
        first [ apply guard_Ok in Hx; try apply bool_decide_eq_true in Hx
              | idtac ]
    | Ok _ = Ok _ => injection H as H
    end.

Lemma has_role_row (db : database) (a : uuid) (r : app_role) :
  has_role db (Some a) r = true
  ↔ ∃ row, row ∈ user_roles db ∧ ur_user_id row = a ∧ ur_role row = r.
Proof.
  unfold has_role. rewrite existsb_exists. split.
  - intros (row & Hin & Hrow). exists row.
    apply andb_true_iff in Hrow as [Hu Hr]. simpl in Hu.
    apply bool_decide_eq_true in Hu, Hr.
    rewrite <- list_elem_of_In in Hin. done.
  - intros (row & Hin & Hu & Hr). exists row.
    rewrite <- list_elem_of_In. split; [done|].
    simpl. by rewrite !bool_decide_eq_true_2.
Qed.

Lemma has_role_anon (db : database) (r : app_role) : has_role db None r = false.
Proof. unfold has_role. by induction (user_roles db). Qed.

(** A session that holds a role is a signed-in one. *)
Lemma has_role_authenticated (s : session) (db : database) (r : app_role) :
  has_role db (auth_uid s) r = true → to_authenticated s = true.
Proof. destruct s; [by rewrite has_role_anon | done]. Qed.

(** ** The shape of a successful insert *)

Lemma table_insert_user_Ok db row db' :
  table_insert_user db row = Ok db' →
  (u_id row ∉ u_id <$> users db) ∧ db' = with_users (users db ++ [row]) db.
Proof. unfold table_insert_user. intros H. ok_inv H. done. Qed.

Lemma table_insert_profile_Ok db row db' :
  table_insert_profile db row = Ok db' →
  (p_id row ∉ p_id <$> profiles db)
  ∧ db' = with_profiles (profiles db ++ [row]) db.
Proof. unfold table_insert_profile. intros H. ok_inv H. done. Qed.

Lemma table_insert_user_role_Ok db row db' :
  table_insert_user_role db row = Ok db' →
  (role_key row ∉ role_key <$> user_roles db)
  ∧ db' = with_user_roles (user_roles db ++ [row]) db.
Proof. unfold table_insert_user_role. intros H. ok_inv H. done. Qed.

Lemma table_insert_complaint_Ok db row db' :
  table_insert_complaint db row = Ok db' →
  db' = with_complaints (complaints db ++ [row]) db.
Proof. unfold table_insert_complaint. intros H. ok_inv H. done. Qed.

Lemma table_insert_complaint_attachment_Ok db row db' :
  table_insert_complaint_attachment db row = Ok db' →
  db' = with_complaint_attachments (complaint_attachments db ++ [row]) db.
Proof. unfold table_insert_complaint_attachment. intros H. ok_inv H. done. Qed.

Lemma table_insert_status_history_Ok db row db' :
  table_insert_status_history db row = Ok db' →
  db' = with_complaint_status_history (complaint_status_history db ++ [row]) db.
Proof. unfold table_insert_status_history. intros H. ok_inv H. done. Qed.

Lemma table_insert_admin_note_Ok db row db' :
  table_insert_admin_note db row = Ok db' →
  db' = with_admin_notes (admin_notes db ++ [row]) db.
Proof. unfold table_insert_admin_note. intros H. ok_inv H. done. Qed.

Lemma upload_Ok accepts s db bucket path f db' :
  Storage.upload accepts s db bucket path f = Ok db' →
  accepts f = true
  ∧ db' = with_objects
            (objects db ++ [{| bucket_id := bucket; name := path;
                               owner := auth_uid s |}]) db.
Proof. unfold Storage.upload. intros H. ok_inv H. done. Qed.

(** ** The role predicate *)

Lemma select_user_roles_anon (db : database) : select_user_roles Anon db = [].
Proof.
  unfold select_user_roles. induction (user_roles db) as [|row l IH]; [done|].
  rewrite filter_cons_False; [done|]. simpl. discriminate.
Qed.

(** C2. [has_role db a r] holds exactly when [user_roles] stores a row with
    the pair [(a, r)]. The scan is over the stored table and not over what the
    table's policies show to a caller: read through the policies of an
    anonymous caller the table is empty and the answer would be "no". The
    admin-only policy on [user_roles] itself, which calls [has_role], is
    therefore a plain function of the stored rows: it admits a session exactly
    when that session is signed in and an admin row is stored for it. *)
Theorem has_role_reads_stored_roles (db : database) (a : uuid) (r : app_role) :
  (has_role db (Some a) r = true
   ↔ ∃ row, row ∈ user_roles db ∧ ur_user_id row = a ∧ ur_role row = r)
  ∧ has_role (with_user_roles (select_user_roles Anon db) db) (Some a) r = false
  ∧ (∀ (s : session) (row : user_role),
       Policy.only_admins_can_manage_roles s db row = true
       ↔ ∃ uid, s = Authenticated uid
                ∧ ∃ held, held ∈ user_roles db ∧ ur_user_id held = uid
                          ∧ ur_role held = admin).
Proof.
  split; [apply has_role_row|]. split.
  - by rewrite select_user_roles_anon.
  - intros s row. unfold Policy.only_admins_can_manage_roles. split.
    + intros H. apply andb_true_iff in H as [Hs Hr]. destruct s as [|uid]; [done|].
      exists uid. split; [done|]. by apply has_role_row.
    + intros (uid & -> & Hheld). simpl. by apply has_role_row.
Qed.

(** ** Inserting a complaint *)

(** C3. A signed-in session that inserts a complaint whose owner is another
    account is refused by the policy. With itself as owner the policy admits
    the row, the statement is the plain table insert, and it stores the row
    once the row's keys are in order. *)
Theorem complaint_insert_checks_owner (uid : uuid) (db : database)
    (row : complaint) :
  (c_user_id row ≠ uid →
     insert_complaint (Authenticated uid) db row = Err insufficient_privilege)
  ∧ (c_user_id row = uid →
       Policy.users_can_create_complaints (Authenticated uid) row = true
       ∧ insert_complaint (Authenticated uid) db row
         = table_insert_complaint db row)
  ∧ (c_user_id row = uid →
       (c_id row ∉ c_id <$> complaints db) →
       (uid ∈ u_id <$> users db) →
       references_user db (assigned_to row) = true →
       insert_complaint (Authenticated uid) db row
       = Ok (with_complaints (complaints db ++ [row]) db)).
Proof.
  unfold insert_complaint, Policy.users_can_create_complaints.
  simpl. split; [|split].
  - intros Hne. rewrite bool_decide_eq_false_2; [done|congruence].
  - intros ->. by rewrite bool_decide_eq_true_2.
  - intros Hown Hid Huser Href. rewrite bool_decide_eq_true_2 by done. simpl.
    unfold table_insert_complaint.
    rewrite (guard_true _ _ (bool_decide_eq_true_2 _ Hid)). simpl.
    rewrite Hown, (guard_true _ _ (bool_decide_eq_true_2 _ Huser)). simpl.
    by rewrite Href.
Qed.

Lemma complaint_insert_checks_owner_witness :
  insert_complaint (Authenticated Sample.alice) Sample.campus
    (Sample.broken_ac "c1" Sample.bob 10) = Err insufficient_privilege
  ∧ insert_complaint (Authenticated Sample.alice) Sample.campus
      (Sample.broken_ac "c1" Sample.alice 10)
    = Ok (with_complaints [Sample.broken_ac "c1" Sample.alice 10] Sample.campus).
Proof.
  split.
  - apply (complaint_insert_checks_owner Sample.alice Sample.campus
             (Sample.broken_ac "c1" Sample.bob 10)).
    vm_compute. discriminate.
  - apply (complaint_insert_checks_owner Sample.alice Sample.campus
             (Sample.broken_ac "c1" Sample.alice 10)).
    + reflexivity.
    + compute_done.
    + compute_done.
    + reflexivity.
Defined.

(** ** Status history and admin notes *)

(** C4. A session that does not hold the admin role can insert neither a
    status-history entry nor an admin note. For a session that holds it, a
    status-history insert passes the policy (it is the plain table insert, and
    stores the row once the row's keys are in order); an admin-note insert
    passes exactly when the note's [admin_id] is the session's own account.
    Reading admin notes yields every note for an admin and none for anybody
    else. *)
Theorem history_and_notes_are_admin_only (s : session) (db : database) :
  (has_role db (auth_uid s) admin = false →
     (∀ h, insert_status_history s db h = Err insufficient_privilege)
     ∧ (∀ n, insert_admin_note s db n = Err insufficient_privilege)
     ∧ select_admin_notes s db = [])
  ∧ (has_role db (auth_uid s) admin = true →
       (∀ h, insert_status_history s db h = table_insert_status_history db h)
       ∧ (∀ h, (h_id h ∉ h_id <$> complaint_status_history db) →
               (h_complaint_id h ∈ c_id <$> complaints db) →
               (changed_by h ∈ u_id <$> users db) →
               insert_status_history s db h
               = Ok (with_complaint_status_history
                       (complaint_status_history db ++ [h]) db))
       ∧ (∀ n, auth_uid s = Some (admin_id n) →
               insert_admin_note s db n = table_insert_admin_note db n)
       ∧ (∀ n, auth_uid s = Some (admin_id n) →
               (n_id n ∉ n_id <$> admin_notes db) →
               (n_complaint_id n ∈ c_id <$> complaints db) →
               (admin_id n ∈ u_id <$> users db) →
               insert_admin_note s db n
               = Ok (with_admin_notes (admin_notes db ++ [n]) db))
       ∧ (∀ n, auth_uid s ≠ Some (admin_id n) →
               insert_admin_note s db n = Err insufficient_privilege)
       ∧ select_admin_notes s db = admin_notes db).
Proof.
  split.
  - intros Hno. repeat split.
    + intros h. unfold insert_status_history, Policy.admins_can_add_status_history.
      by rewrite Hno, andb_false_r.
    + intros n. unfold insert_admin_note, Policy.only_admins_can_create_admin_notes.
      by rewrite Hno, andb_false_r.
    + unfold select_admin_notes, Policy.only_admins_can_view_admin_notes.
      rewrite Hno, andb_false_r.
      induction (admin_notes db) as [|n l IH]; [done|].
      by rewrite filter_cons_False.
  - intros Hyes. pose proof (has_role_authenticated _ _ _ Hyes) as Hs.
    assert (Hhist : ∀ h, insert_status_history s db h
                         = table_insert_status_history db h).
    { intros h. unfold insert_status_history, Policy.admins_can_add_status_history.
      by rewrite Hyes, Hs. }
    assert (Hnote : ∀ n, auth_uid s = Some (admin_id n) →
                         insert_admin_note s db n = table_insert_admin_note db n).
    { intros n Hn. unfold insert_admin_note, Policy.only_admins_can_create_admin_notes.
      rewrite Hyes, Hs, Hn. simpl. by rewrite bool_decide_eq_true_2. }
    split; [done|]. split; [|split; [done|split; [|split]]].
    + intros h Hid Hc Hu. rewrite Hhist. unfold table_insert_status_history.
      rewrite (guard_true _ _ (bool_decide_eq_true_2 _ Hid)). simpl.
      rewrite (guard_true _ _ (bool_decide_eq_true_2 _ Hc)). simpl.
      by rewrite (guard_true _ _ (bool_decide_eq_true_2 _ Hu)).
    + intros n Hn Hid Hc Hu. rewrite Hnote by done. unfold table_insert_admin_note.
      rewrite (guard_true _ _ (bool_decide_eq_true_2 _ Hid)). simpl.
      rewrite (guard_true _ _ (bool_decide_eq_true_2 _ Hc)). simpl.
      by rewrite (guard_true _ _ (bool_decide_eq_true_2 _ Hu)).
    + intros n Hn. unfold insert_admin_note, Policy.only_admins_can_create_admin_notes.
      rewrite Hyes, Hs. simpl. destruct (auth_uid s) as [u|]; simpl.
      * rewrite bool_decide_eq_false_2; [done|congruence].
      * done.
    + unfold select_admin_notes, Policy.only_admins_can_view_admin_notes.
      rewrite Hyes, Hs. simpl.
      induction (admin_notes db) as [|n l IH]; [done|].
      rewrite filter_cons_True by done. by rewrite IH.
Qed.

Lemma history_and_notes_are_admin_only_witness :
  insert_status_history (Authenticated Sample.alice)
    Sample.campus_with_complaints (Sample.taken_in_hand Sample.alice)
  = Err insufficient_privilege
  ∧ insert_status_history (Authenticated Sample.root)
      Sample.campus_with_complaints (Sample.taken_in_hand Sample.root)
    = Ok (with_complaint_status_history [Sample.taken_in_hand Sample.root]
            Sample.campus_with_complaints)
  ∧ insert_admin_note (Authenticated Sample.root)
      Sample.campus_with_complaints (Sample.triage_note Sample.root)
    = Ok (with_admin_notes [Sample.triage_note Sample.root]
            Sample.campus_with_complaints)
  ∧ insert_admin_note (Authenticated Sample.root)
      Sample.campus_with_complaints (Sample.triage_note Sample.bob)
    = Err insufficient_privilege.
Proof.
  destruct (history_and_notes_are_admin_only (Authenticated Sample.alice)
              Sample.campus_with_complaints) as [Hstudent _].
  destruct (history_and_notes_are_admin_only (Authenticated Sample.root)
              Sample.campus_with_complaints) as [_ Hadmin].
  destruct (Hstudent eq_refl) as (Hh & _).
  destruct (Hadmin eq_refl) as (_ & Hh' & _ & Hn & Hn' & _).
  split; [apply Hh|]. split; [|split].
  - apply Hh'; compute_done.
  - apply Hn; [reflexivity|compute_done..].
  - apply Hn'. vm_compute. discriminate.
Defined.

(** ** Account bootstrap *)

Lemma on_auth_user_created_Ok db NEW rid now db' :
  on_auth_user_created db NEW rid now = Ok db' →
  (u_id NEW ∉ p_id <$> profiles db)
  ∧ ((u_id NEW, student) ∉ role_key <$> user_roles db)
  ∧ db' = with_user_roles
            (user_roles db ++ [user_roles_values rid (u_id NEW) student now])
            (with_profiles
               (profiles db
                ++ [profiles_values (u_id NEW)
                      (jsonb_get_text (raw_user_meta_data NEW) "full_name") now])
               (with_users (users db ++ [NEW]) db)).
Proof.
  unfold on_auth_user_created, handle_new_user. intros H.
  apply bind_Ok in H as (db1 & H1 & H).
  apply bind_Ok in H as (db2 & H2 & H).
  apply bind_Ok in H as (db3 & H3 & H). injection H as <-.
  apply table_insert_user_Ok in H1 as [_ ->].
  apply table_insert_profile_Ok in H2 as [Hp ->].
  apply table_insert_user_role_Ok in H3 as [Hr ->].
  done.
Qed.

Lemma filter_none {A} (P : A → Prop) `{∀ x, Decision (P x)} (l : list A) :
  (∀ x, x ∈ l → ¬ P x) → filter P l = [].
Proof.
  induction l as [|x l IH]; intros Hl; [done|].
  rewrite filter_cons_False by (apply Hl; left).
  apply IH. intros y Hy. apply Hl. by right.
Qed.



(** ** Uniqueness of role assignments *)

(** An invariant of the table that every visited row keeps is an invariant of
    the whole [UPDATE]. *)
Lemma update_each_invariant {A} (f : list A → A → outcome A)
    (I : list A → Prop) :
  (∀ done row rest row',
     I (done ++ row :: rest) → f (done ++ rest) row = Ok row' →
     I (done ++ row' :: rest)) →
  ∀ todo done rows,
    I (done ++ todo) → update_each f done todo = Ok rows → I rows.
Proof.
  intros Hstep. induction todo as [|row rest IH]; intros done rows HI H.
  - simpl in H. injection H as <-. by rewrite app_nil_r in HI.
  - simpl in H. apply bind_Ok in H as (row' & Hf & H).
    apply (IH (done ++ [row'])); [|done].
    rewrite <- app_assoc. simpl. by eapply Hstep.
Qed.

Section frame.

Context (accepts : Storage.File.t → bool) (endpoint : string)
        (user : Client.User) (c : complaint).

(** The upload loop writes to [objects] and [complaint_attachments] only. *)
Lemma upload_loop_frame (items : list Client.upload_item) (db : database) :
  let db' := fst (Client.upload_loop accepts endpoint user c items db) in
  users db' = users db ∧ profiles db' = profiles db
  ∧ user_roles db' = user_roles db ∧ complaints db' = complaints db
  ∧ complaint_status_history db' = complaint_status_history db
  ∧ admin_notes db' = admin_notes db.
Proof.
  revert db. induction items as [|it rest IH]; intros db; [done|].
  simpl.
  destruct (Storage.upload _ _ _ _ _ _) as [db1|e] eqn:Hup; [|done].
  apply upload_Ok in Hup as [_ ->].
  destruct (Client.insert_attachment_request _ _ _ _ _ _ _ _)
    as [db2|e] eqn:Hins.
  - unfold Client.insert_attachment_request in Hins.
    apply bind_Ok in Hins as (size & _ & Hins).
    unfold insert_complaint_attachment in Hins.
    apply bind_Ok in Hins as (? & _ & Hins).
    apply table_insert_complaint_attachment_Ok in Hins as ->.
    match goal with
    | |- context [Client.upload_loop _ _ _ _ rest ?next] => apply (IH next)
    end.
  - apply (IH (with_objects _ db)).
Qed.

End frame.

Lemma handleSubmit_user_roles accepts endpoint user f d files db :
  user_roles (fst (Client.handleSubmit accepts endpoint user f d files db))
  = user_roles db.
Proof.
  unfold Client.handleSubmit. destruct user as [user|]; [|done].
  destruct (Client.insert_complaint_returning _ _ _ _) as [[db1 c]|e] eqn:Hc;
    [|done].
  pose proof (upload_loop_frame accepts endpoint user c files db1) as Hframe.
  destruct (Client.upload_loop _ _ _ _ _ _) as [db2 [e|]]; simpl in *;
    destruct Hframe as (_ & _ & -> & _);
    unfold Client.insert_complaint_returning in Hc;
    apply bind_Ok in Hc as (p & _ & Hc);
    apply bind_Ok in Hc as (db1' & Hins & Hc);
    apply bind_Ok in Hc as (? & _ & Hc); injection Hc as <- _;
    unfold insert_complaint in Hins;
    apply bind_Ok in Hins as (? & _ & Hins);
    by apply table_insert_complaint_Ok in Hins as ->.
Qed.

Lemma roles_unique_snoc (l : list user_role) (row : user_role) :
  NoDup (role_key <$> l) → (role_key row ∉ role_key <$> l) →
  NoDup (role_key <$> (l ++ [row])).
Proof.
  intros Hl Hrow. rewrite fmap_app. apply NoDup_app. split; [done|]. split.
  - intros k Hk Hk'. apply list_elem_of_singleton in Hk'. by subst.
  - apply NoDup_singleton.
Qed.

Lemma roles_unique_filter (P : user_role → Prop) `{∀ x, Decision (P x)}
    (l : list user_role) :
  NoDup (role_key <$> l) → NoDup (role_key <$> filter P l).
Proof.
  intros Hl. eapply sublist_NoDup; [exact Hl|].
  apply fmap_sublist, sublist_filter.
Qed.

Lemma update_user_roles_unique s db qual assign db' :
  roles_unique db → update_user_roles s db qual assign = Ok db' →
  roles_unique db'.
Proof.
  unfold roles_unique, update_user_roles. intros Hdb H.
  apply bind_Ok in H as (rows & Hrows & H). injection H as <-. simpl.
  revert Hrows.
  apply (update_each_invariant _ (fun l => NoDup (role_key <$> l)));
    [|done].
  intros done row rest row' Hinv Hrow.
  unfold update_user_role_row in Hrow.
  destruct (_ && _ && qual row).
  - ok_inv Hrow. subst row'.
    rewrite fmap_app, fmap_cons, <- Permutation_middle.
    rewrite fmap_app, fmap_cons, <- Permutation_middle in Hinv.
    apply NoDup_cons in Hinv as [_ Hinv].
    apply NoDup_cons. split; [|done]. by rewrite <- fmap_app.
  - by injection Hrow as <-.
Qed.

(** Every statement keeps [UNIQUE(user_id, role)]. *)
Lemma exec_roles_unique s c db db' :
  roles_unique db → exec s c db = Ok db' → roles_unique db'.
Proof.
  unfold roles_unique. intros Hdb H. destruct c; simpl in H.
  - apply on_auth_user_created_Ok in H as (_ & Hr & ->). simpl.
    by apply roles_unique_snoc.
  - injection H as <-. simpl. by apply roles_unique_filter.
  - unfold insert_user_role in H. apply bind_Ok in H as (? & _ & H).
    apply table_insert_user_role_Ok in H as [Hr ->]. simpl.
    by apply roles_unique_snoc.
  - by eapply update_user_roles_unique.
  - injection H as <-. simpl. by apply roles_unique_filter.
  - unfold insert_complaint in H. apply bind_Ok in H as (? & _ & H).
    by apply table_insert_complaint_Ok in H as ->.
  - unfold update_complaints in H. apply bind_Ok in H as (? & _ & H).
    by injection H as <-.
  - unfold insert_complaint_attachment in H. apply bind_Ok in H as (? & _ & H).
    by apply table_insert_complaint_attachment_Ok in H as ->.
  - unfold insert_status_history in H. apply bind_Ok in H as (? & _ & H).
    by apply table_insert_status_history_Ok in H as ->.
  - unfold insert_admin_note in H. apply bind_Ok in H as (? & _ & H).
    by apply table_insert_admin_note_Ok in H as ->.
  - by apply upload_Ok in H as [_ ->].
  - by injection H as <-.
  - injection H as <-. by rewrite handleSubmit_user_roles.
  - unfold update_profiles in H. apply bind_Ok in H as (? & _ & H).
    by injection H as <-.
Qed.

Lemma after_roles_unique s c db : roles_unique db → roles_unique (after s c db).
Proof.
  intros Hdb. unfold after. destruct (exec s c db) eqn:H; [|done].
  by eapply exec_roles_unique.
Qed.

Lemma count_role_le_1 db uid r : roles_unique db → (count_role db uid r ≤ 1)%nat.
Proof.
  unfold roles_unique, count_role.
  induction (user_roles db) as [|row l IH]; intros Hl; [simpl; lia|].
  rewrite fmap_cons in Hl. apply NoDup_cons in Hl as [Hrow Hl].
  destruct (decide (role_key row = (uid, r))) as [Heq|Hne].
  - rewrite filter_cons_True by done. simpl.
    rewrite (filter_none _ l); [simpl; lia|].
    intros row' Hin Heq'. apply Hrow. rewrite Heq, <- Heq'.
    by apply list_elem_of_fmap_2.
  - rewrite filter_cons_False by done. by apply IH.
Qed.

(** C5. In every database the statements can build, a pair of account and
    role is carried by at most one row of [user_roles]. No insert of a pair
    that is already stored returns: neither the one a session sends through
    the policy nor the one the sign-up trigger performs, so the statement
    leaves the table as it was. *)
Theorem role_assignments_are_unique :
  (∀ db, reachable db → roles_unique db)
  ∧ (∀ db uid r, reachable db → (count_role db uid r ≤ 1)%nat)
  ∧ (∀ s c db db', roles_unique db → exec s c db = Ok db' → roles_unique db')
  ∧ (∀ s db row, (role_key row ∈ role_key <$> user_roles db) →
       (∀ db', insert_user_role s db row ≠ Ok db')
       ∧ (∀ db', table_insert_user_role db row ≠ Ok db')
       ∧ after s (InsertRole row) db = db).
Proof.
  assert (Hreach : ∀ db, reachable db → roles_unique db).
  { induction 1 as [|s c db _ IH]; [apply NoDup_nil_2|].
    by apply after_roles_unique. }
  split; [done|]. split; [|split].
  - intros db uid r Hdb. by apply count_role_le_1, Hreach.
  - apply exec_roles_unique.
  - intros s db row Hdup.
    assert (Htable : ∀ db', table_insert_user_role db row ≠ Ok db').
    { intros db' H. by apply table_insert_user_role_Ok in H as [Hfresh _]. }
    assert (Hrls : ∀ db', insert_user_role s db row ≠ Ok db').
    { intros db' H. unfold insert_user_role in H.
      apply bind_Ok in H as (? & _ & H). by apply Htable in H. }
    split; [done|]. split; [done|].
    unfold after. simpl.
    destruct (insert_user_role s db row) as [db'|e]; [|done].
    by destruct (Hrls db').
Qed.

Lemma role_assignments_are_unique_witness :
  roles_unique (after (Authenticated Sample.root)
                  (InsertRole (Sample.role_row "r5" Sample.alice admin))
                  Sample.campus)
  ∧ insert_user_role (Authenticated Sample.root) Sample.campus
      (Sample.role_row "r5" Sample.alice student)
    ≠ Ok (with_user_roles
            (user_roles Sample.campus
             ++ [Sample.role_row "r5" Sample.alice student]) Sample.campus)
  ∧ after (Authenticated Sample.root)
      (InsertRole (Sample.role_row "r5" Sample.alice student)) Sample.campus
    = Sample.campus.
Proof.
  destruct role_assignments_are_unique as (_ & _ & Hstep & Hdup).
  split.
  - unfold after.
    destruct (exec (Authenticated Sample.root)
                (InsertRole (Sample.role_row "r5" Sample.alice admin))
                Sample.campus) as [db'|e] eqn:H.
    + eapply Hstep; [|exact H]. compute_done.
    + compute_done.
  - destruct (Hdup (Authenticated Sample.root) Sample.campus
                (Sample.role_row "r5" Sample.alice student))
      as (Hrls & _ & Hsame); [compute_done|].
    split; [apply Hrls | apply Hsame].
Defined.

(** ** The owner of a complaint under [UPDATE] *)

Lemma sql_eq_true {A} `{EqDecision A} (x : option A) (y : A) :
  sql_eq x y = true → x = Some y.
Proof.
  destruct x as [x'|]; simpl; [|discriminate].
  intros H. apply bool_decide_eq_true in H. by subst.
Qed.

(** A row visited on behalf of a session without the admin role keeps its
    owner: the row is touched only if the session owns it, and the new version
    is admitted only if the session owns that as well. *)
Lemma update_complaint_row_keeps_owner s db now qual assign others OLD NEW :
  has_role db (auth_uid s) admin = false →
  update_complaint_row s db now qual assign others OLD = Ok NEW →
  c_user_id NEW = c_user_id OLD.
Proof.
  intros Hno H. unfold update_complaint_row in H.
  unfold Policy.admins_can_update_any_complaint in H.
  rewrite Hno, andb_false_r, !orb_false_r in H.
  destruct (_ && _ && qual OLD) eqn:Hq.
  - apply andb_true_iff in Hq as [Hq _]. apply andb_true_iff in Hq as [_ Hold].
    apply bind_Ok in H as (? & Hnew & H). apply guard_Ok in Hnew.
    ok_inv H. subst NEW.
    unfold Policy.users_can_update_own_complaints in Hold, Hnew.
    apply andb_true_iff in Hold as [_ Hold]. apply andb_true_iff in Hnew as [_ Hnew].
    apply sql_eq_true in Hold, Hnew.
    change (c_user_id (update_updated_at_column now (assign OLD)))
      with (c_user_id (assign OLD)) in *.
    congruence.
  - by injection H as <-.
Qed.

(** C7, as the code has it. An [UPDATE] sent by a session that does not hold
    the admin role leaves the owner of every complaint as it was, whatever the
    statement assigns. A session that holds the admin role can move a
    complaint to another account. *)
Theorem owner_changes_need_admin :
  (∀ s db now qual assign db',
     has_role db (auth_uid s) admin = false →
     update_complaints s db now qual assign = Ok db' →
     c_user_id <$> complaints db' = c_user_id <$> complaints db)
  ∧ (∃ s db now qual assign db',
       has_role db (auth_uid s) admin = true
       ∧ update_complaints s db now qual assign = Ok db'
       ∧ c_user_id <$> complaints db' ≠ c_user_id <$> complaints db).
Proof.
  split.
  - intros s db now qual assign db' Hno H. unfold update_complaints in H.
    apply bind_Ok in H as (rows & Hrows & H). injection H as <-. simpl.
    revert Hrows.
    apply (update_each_invariant _
             (fun l => c_user_id <$> l = c_user_id <$> complaints db));
      [|done].
    intros done row rest row' Hinv Hrow.
    apply update_complaint_row_keeps_owner in Hrow; [|done].
    rewrite fmap_app, fmap_cons in *. by rewrite Hrow.
  - exists (Authenticated Sample.root), Sample.campus_with_complaints, 40,
      (Sample.by_id "c1"), (Sample.hand_over Sample.bob).
    eexists. split; [reflexivity|]. split; [vm_compute; reflexivity|].
    vm_compute. discriminate.
Qed.

Lemma owner_changes_need_admin_witness :
  ∃ db', update_complaints (Authenticated Sample.alice)
           Sample.campus_with_complaints 40 (Sample.by_id "c1")
           (Sample.set_status closed) = Ok db'
         ∧ status <$> complaints db' = [closed; new]
         ∧ c_user_id <$> complaints db' = [Sample.alice; Sample.bob].
Proof.
  destruct owner_changes_need_admin as [Hkeep _].
  eexists. split; [vm_compute; reflexivity|]. split; [reflexivity|].
  apply (Hkeep (Authenticated Sample.alice) Sample.campus_with_complaints 40
           (Sample.by_id "c1") (Sample.set_status closed)).
  - reflexivity.
  - vm_compute. reflexivity.
Defined.

(** C7 as the specification words it fails: an admin's update changes the
    owner of Alice's complaint to Bob. *)
Lemma owner_is_immutable_counterexample :
  ¬ (∀ s db now qual assign db',
       update_complaints s db now qual assign = Ok db' →
       c_user_id <$> complaints db' = c_user_id <$> complaints db).
Proof.
  intros H.
  pose proof (H (Authenticated Sample.root) Sample.campus_with_complaints 40
                (Sample.by_id "c1") (Sample.hand_over Sample.bob)) as H'.
  vm_compute in H'. specialize (H' _ eq_refl). discriminate.
Qed.

(** ** The dashboard's list *)

#[local] Instance newer_first_total : Total Client.newer_first.
Proof. intros a b. unfold Client.newer_first. lia. Qed.

#[local] Instance newer_first_trans : Transitive Client.newer_first.
Proof. intros a b c. unfold Client.newer_first. lia. Qed.

Lemma select_complaints_authenticated uid db :
  select_complaints (Authenticated uid) db = complaints db.
Proof.
  unfold select_complaints. induction (complaints db) as [|c l IH]; [done|].
  rewrite filter_cons_True by done. by rewrite IH.
Qed.

Lemma filter_all {A} (P : A → Prop) `{∀ x, Decision (P x)} (l : list A) :
  (∀ x, P x) → filter P l = l.
Proof.
  intros HP. induction l as [|x l IH]; [done|].
  rewrite filter_cons_True by done. by rewrite IH.
Qed.

(** C8. For a signed-in account the list holds exactly the complaints that
    account owns when the admin flag is off, and exactly the stored complaints
    when it is on (each as often as it is stored); either way a complaint
    never precedes a more recently created one. *)
Theorem dashboard_lists_own_or_all (db : database) (user : Client.User)
    (isAdmin : bool) :
  let rows := Client.queryFn (Some user) isAdmin db in
  (isAdmin = false →
     rows ≡ₚ filter (fun c => c_user_id c = Client.id user) (complaints db)
     ∧ ∀ c, c ∈ rows ↔ c ∈ complaints db ∧ c_user_id c = Client.id user)
  ∧ (isAdmin = true → rows ≡ₚ complaints db)
  ∧ StronglySorted Client.newer_first rows.
Proof.
  simpl. unfold Client.run_query, Client.session_of.
  rewrite select_complaints_authenticated. split; [|split].
  - intros ->. simpl.
    assert (Hperm : merge_sort Client.newer_first
                      (filter (fun c => Client.matches
                                 {| Client.eq_user_id := Some (Client.id user) |} c
                               = true) (complaints db))
                    ≡ₚ filter (fun c => c_user_id c = Client.id user)
                         (complaints db)).
    { rewrite merge_sort_Permutation.
      erewrite list_filter_iff; [done|]. intros c. unfold Client.matches. simpl.
      apply bool_decide_eq_true. }
    split; [done|]. intros c. rewrite Hperm, list_elem_of_filter. tauto.
  - intros ->. simpl. rewrite merge_sort_Permutation.
    by rewrite filter_all.
  - apply StronglySorted_merge_sort; apply _.
Qed.

Lemma dashboard_lists_own_or_all_witness :
  c_id <$> Client.queryFn (Some {| Client.id := Sample.alice |}) false
             Sample.campus_with_complaints = ["c1"]
  ∧ Client.queryFn (Some {| Client.id := Sample.alice |}) false
      Sample.campus_with_complaints
    ≡ₚ filter (fun c => c_user_id c = Sample.alice)
         (complaints Sample.campus_with_complaints)
  ∧ c_id <$> Client.queryFn (Some {| Client.id := Sample.root |}) true
               Sample.campus_with_complaints = ["c2"; "c1"]
  ∧ Client.queryFn (Some {| Client.id := Sample.root |}) true
      Sample.campus_with_complaints
    ≡ₚ complaints Sample.campus_with_complaints.
Proof.
  split; [reflexivity|]. split; [|split; [reflexivity|]].
  - apply (dashboard_lists_own_or_all Sample.campus_with_complaints
             {| Client.id := Sample.alice |} false). reflexivity.
  - apply (dashboard_lists_own_or_all Sample.campus_with_complaints
             {| Client.id := Sample.root |} true). reflexivity.
Defined.

(** The same with the flag [useAuth] would supply: what the dashboard lists
    follows the account's stored role. *)
Lemma dashboard_lists_by_role (db : database) (user : Client.User) :
  let rows := Client.queryFn (Some user) (Client.useAuth_isAdmin db user) db in
  (has_role db (Some (Client.id user)) admin = false →
     rows ≡ₚ filter (fun c => c_user_id c = Client.id user) (complaints db))
  ∧ (has_role db (Some (Client.id user)) admin = true →
       rows ≡ₚ complaints db).
Proof.
  unfold Client.useAuth_isAdmin. split; intros Hrole; rewrite Hrole.
  - simpl. unfold Client.run_query, Client.session_of.
    rewrite select_complaints_authenticated, merge_sort_Permutation.
    erewrite list_filter_iff; [done|]. intros c. unfold Client.matches. simpl.
    apply bool_decide_eq_true.
  - simpl. unfold Client.run_query, Client.session_of.
    rewrite select_complaints_authenticated, merge_sort_Permutation.
    by rewrite filter_all.
Qed.

(** ** Object names and who may delete them *)

Lemma split_nonempty sep s : split sep s ≠ [].
Proof.
  destruct s as [|c s]; simpl; [done|].
  destruct (Ascii.eqb c sep); [done|]. by destruct (split sep s).
Qed.

Lemma split_String sep c s :
  split sep (String c s)
  = if Ascii.eqb c sep then EmptyString :: split sep s
    else match split sep s with
         | piece :: pieces => String c piece :: pieces
         | [] => [String c EmptyString]
         end.
Proof. done. Qed.

Lemma split_prefix sep a rest :
  occurs sep a = false →
  split sep (a +:+ String sep rest) = a :: split sep rest.
Proof.
  induction a as [|c a IH]; intros Ha.
  - change (EmptyString +:+ String sep rest) with (String sep rest).
    by rewrite split_String, Ascii.eqb_refl.
  - simpl in Ha. apply orb_false_iff in Ha as [Hc Ha].
    change (String c a +:+ String sep rest)
      with (String c (a +:+ String sep rest)).
    by rewrite split_String, Hc, IH.
Qed.

(** The first path segment of an uploaded object is the complaint's
    identifier. *)
Lemma fileName_first_segment (c : complaint) (it : Client.upload_item) :
  occurs "/" (c_id c) = false →
  Storage.first_element (Storage.foldername (Client.fileName c it))
  = Some (c_id c).
Proof.
  intros Hid. unfold Storage.foldername, Client.fileName.
  change (c_id c +:+ "/" +:+ ?r) with (c_id c +:+ String "/" r).
  rewrite split_prefix by done.
  pose proof (split_nonempty "/"
    (pretty (Client.date_now it) +:+ "." +:+ Client.fileExt (Client.file it))).
  by destruct (split _ _).
Qed.

(** [remove] takes an object away only on behalf of the signed-in account
    whose identifier is the first path segment of the object's name. *)
Lemma remove_only_by_first_segment s db bucket path o :
  o ∈ objects db → o ∉ objects (Storage.remove s db bucket path) →
  bucket_id o = Storage.attachments_bucket
  ∧ ∃ uid, s = Authenticated uid
           ∧ Storage.first_element (Storage.foldername (name o)) = Some uid.
Proof.
  intros Hin Hgone. simpl in Hgone. rewrite list_elem_of_filter in Hgone.
  destruct (decide (bucket_id o = bucket ∧ name o = path
      ∧ Storage.authenticated_users_can_view_attachments s o = true
      ∧ Storage.users_can_delete_own_attachments s o = true))
    as [(_ & _ & _ & Hdel)|Hkeep]; [|by destruct Hgone].
  unfold Storage.users_can_delete_own_attachments in Hdel.
  apply andb_true_iff in Hdel as [_ Hdel].
  apply andb_true_iff in Hdel as [Hb Hdel].
  apply bool_decide_eq_true in Hb, Hdel. destruct Hdel as [Hsome Hdel].
  split; [done|]. destruct s as [|uid]; [by destruct Hsome|]. by exists uid.
Qed.

(** C1, at a submission of Alice's with one file. The object is stored under
    the complaint's identifier, not under Alice's, and so the delete policy
    refuses Alice the object she uploaded. *)
Theorem upload_path_is_keyed_by_complaint :
  let run := Client.handleSubmit Sample.no_executables Sample.endpoint
               (Some {| Client.id := Sample.alice |}) Sample.the_form
               Sample.complaint_draw
               [Sample.item Sample.photo 1700000000000 "a1"] Sample.campus in
  snd run = Client.Success
  ∧ objects (fst run)
    = [{| bucket_id := "complaint-attachments";
          name := "c9/1700000000000.png"; owner := Some Sample.alice |}]
  ∧ Storage.first_element (Storage.foldername "c9/1700000000000.png")
    = Some "c9"
  ∧ Storage.first_element (Storage.foldername "c9/1700000000000.png")
    ≠ Some Sample.alice
  ∧ Storage.remove (Authenticated Sample.alice) (fst run)
      "complaint-attachments" "c9/1700000000000.png" = fst run.
Proof. vm_compute. repeat split; discriminate. Qed.

(** ** The upload loop *)

Section upload_loop.

Import Storage Client.

Context (accepts : File.t → bool) (endpoint : string) (user : User)
        (c : complaint).

Lemma upload_object it db db1 :
  upload accepts (session_of user) db attachments_bucket (fileName c it)
    (file it) = Ok db1 →
  db1 = with_objects (objects db ++ [object_of user c it]) db.
Proof. intros H. by apply upload_Ok in H as [_ ->]. Qed.

Lemma insert_attachment_request_row it db db' :
  insert_attachment_request user db (c_id c) (File.name (file it))
    (getPublicUrl endpoint attachments_bucket (fileName c it))
    (File.type (file it)) (File.size (file it)) (row_drawn it) = Ok db' →
  db' = with_complaint_attachments
          (complaint_attachments db ++ [row_of endpoint c it]) db.
Proof.
  unfold insert_attachment_request, int4_of_number. intros H.
  apply bind_Ok in H as (size & Hsize & H).
  case_bool_decide; [|discriminate]. injection Hsize as <-.
  unfold insert_complaint_attachment in H.
  apply bind_Ok in H as (? & _ & H).
  by apply table_insert_complaint_attachment_Ok in H as ->.
Qed.

(** The loop over [before ++ items] is the loop over [items] from where the
    loop over [before] ended, unless that one stopped with an error. *)
Lemma upload_loop_app (before items : list upload_item) (db : database) :
  upload_loop accepts endpoint user c (before ++ items) db
  = match upload_loop accepts endpoint user c before db with
    | (db', None) => upload_loop accepts endpoint user c items db'
    | (db', Some e) => (db', Some e)
    end.
Proof.
  revert db. induction before as [|it before IH]; intros db; [done|].
  simpl. destruct (upload _ _ _ _ _ _) as [db1|e]; [|done]. apply IH.
Qed.

(** What a run of the loop leaves behind: the objects of the first [k]
    files, [k] being the number of storage writes that succeeded, and among
    the attachment rows of those [k] files the ones whose insert succeeded,
    in order. The loop reports an error exactly when it stopped before the
    last file. *)
Lemma upload_loop_shape (items : list upload_item) (db : database) :
  let run := upload_loop accepts endpoint user c items db in
  ∃ (k : nat) (rows : list complaint_attachment),
    objects (fst run) = objects db ++ (object_of user c <$> take k items)
    ∧ complaint_attachments (fst run) = complaint_attachments db ++ rows
    ∧ rows `sublist_of` (row_of endpoint c <$> take k items)
    ∧ match snd run with
      | None => k = length items
      | Some _ => (k < length items)%nat
      end.
Proof.
  revert db. induction items as [|it rest IH]; intros db.
  - exists 0%nat, []. simpl. by rewrite !app_nil_r.
  - simpl.
    destruct (upload accepts (session_of user) db attachments_bucket
                (fileName c it) (file it)) as [db1|e] eqn:Hup.
    + apply upload_object in Hup as ->.
      destruct (insert_attachment_request user _ (c_id c) _ _ _ _ _)
        as [db2|e] eqn:Hins.
      * apply insert_attachment_request_row in Hins as ->.
        destruct (IH (with_complaint_attachments
                        (complaint_attachments
                           (with_objects (objects db ++ [object_of user c it]) db)
                         ++ [row_of endpoint c it])
                        (with_objects (objects db ++ [object_of user c it]) db)))
          as (k & rows & Hobj & Hrows & Hsub & Hk).
        destruct (upload_loop accepts endpoint user c rest _) as [db' r].
        simpl in *. exists (S k), (row_of endpoint c it :: rows).
        rewrite Hobj, Hrows. simpl. rewrite <- !app_assoc. simpl.
        repeat split; [by apply sublist_skip|].
        destruct r; lia.
      * destruct (IH (with_objects (objects db ++ [object_of user c it]) db))
          as (k & rows & Hobj & Hrows & Hsub & Hk).
        destruct (upload_loop accepts endpoint user c rest _) as [db' r].
        simpl in *. exists (S k), rows.
        rewrite Hobj, Hrows. simpl. rewrite <- !app_assoc. simpl.
        repeat split; [by apply sublist_cons|].
        destruct r; lia.
    + exists 0%nat, []. simpl. rewrite !app_nil_r.
      repeat split; [constructor | lia].
Qed.

End upload_loop.

(** C9, at a submission of Alice's with two files: a recording of two GiB and
    an installer that the blob store refuses. The recording is stored, the
    insert of its attachment row fails on the [INT] column and nobody looks at
    that; the installer's refusal ends the loop and is what is reported. No
    attachment row exists afterwards, although the file before the failing
    one was stored. *)
Theorem unchecked_insert_loses_the_row_before_the_failure :
  let run := Client.handleSubmit Sample.no_executables Sample.endpoint
               (Some {| Client.id := Sample.alice |}) Sample.the_form
               Sample.complaint_draw
               [Sample.item Sample.recording 1700000000000 "a1";
                Sample.item Sample.installer 1700000000001 "a2"]
               Sample.campus in
  snd run = Client.Error payload_rejected
  ∧ name <$> objects (fst run) = ["c9/1700000000000.mp4"]
  ∧ complaint_attachments (fst run) = []
  ∧ c_id <$> complaints (fst run) = ["c9"].
Proof. vm_compute. done. Qed.

(** The scenario of the specification, with a first file whose row does fit:
    the second file's refusal is reported and exactly the first file's row is
    stored. *)
Lemma second_file_refused :
  let run := Client.handleSubmit Sample.no_executables Sample.endpoint
               (Some {| Client.id := Sample.alice |}) Sample.the_form
               Sample.complaint_draw
               [Sample.item Sample.photo 1700000000000 "a1";
                Sample.item Sample.installer 1700000000001 "a2"]
               Sample.campus in
  snd run = Client.Error payload_rejected
  ∧ name <$> objects (fst run) = ["c9/1700000000000.png"]
  ∧ a_id <$> complaint_attachments (fst run) = ["a1"].
Proof. vm_compute. done. Qed.

(** C10, as the code has it. When the loop has come to a file, the storage
    write for it succeeds and the insert of its attachment row fails, the
    object stays stored, no row is added for it, and the loop goes on with the
    remaining files from there: the failed insert never shows in what is
    reported. The submission is reported as a success if no later storage
    write fails, and with that write's error otherwise. *)
Theorem unchecked_insert_is_dropped (accepts : Storage.File.t → bool)
    (endpoint : string) (user : Client.User) (f : Client.form)
    (d : Client.drawn) (before : list Client.upload_item)
    (it : Client.upload_item) (rest : list Client.upload_item)
    (db db0 db1 db2 : database) (c : complaint) (e : error) :
  Client.insert_complaint_returning user f d db = Ok (db0, c) →
  Client.upload_loop accepts endpoint user c before db0 = (db1, None) →
  Storage.upload accepts (Client.session_of user) db1
    Storage.attachments_bucket (Client.fileName c it) (Client.file it)
  = Ok db2 →
  Client.insert_attachment_request user db2 (c_id c)
    (Storage.File.name (Client.file it))
    (Storage.getPublicUrl endpoint Storage.attachments_bucket
       (Client.fileName c it))
    (Storage.File.type (Client.file it)) (Storage.File.size (Client.file it))
    (Client.row_drawn it) = Err e →
  let later := Client.upload_loop accepts endpoint user c rest db2 in
  let run := Client.handleSubmit accepts endpoint (Some user) f d
               (before ++ it :: rest) db in
  objects db2 = objects db1 ++ [Client.object_of user c it]
  ∧ complaint_attachments db2 = complaint_attachments db1
  ∧ run = (fst later,
           match snd later with
           | Some uploadError => Client.Error uploadError
           | None => Client.Success
           end)
  ∧ (snd later = None → snd run = Client.Success)
  ∧ Client.object_of user c it ∈ objects (fst run)
  ∧ ∃ rows, complaint_attachments (fst run) = complaint_attachments db1 ++ rows
            ∧ rows `sublist_of` (Client.row_of endpoint c <$> rest).
Proof.
  intros Hc Hbefore Hup Hins later run.
  assert (Hrun : run = (fst later,
                        match snd later with
                        | Some uploadError => Client.Error uploadError
                        | None => Client.Success
                        end)).
  { unfold run, Client.handleSubmit. rewrite Hc.
    rewrite upload_loop_app, Hbefore. simpl. rewrite Hup, Hins.
    fold later. by destruct later as [db3 [e'|]]. }
  pose proof (upload_object _ _ _ _ _ _ Hup) as Hdb2.
  destruct (upload_loop_shape accepts endpoint user c rest db2)
    as (k & rows & Hobj & Hrows & Hsub & _).
  fold later in Hobj, Hrows.
  split; [by rewrite Hdb2|]. split; [by rewrite Hdb2|]. split; [done|].
  split; [by rewrite Hrun; intros ->|].
  rewrite Hrun. simpl. split.
  - rewrite Hobj, Hdb2. simpl. apply elem_of_app. left.
    apply elem_of_app. right. left.
  - exists rows. split; [by rewrite Hrows, Hdb2|].
    etrans; [exact Hsub|]. apply fmap_sublist, sublist_take.
Qed.

Lemma unchecked_insert_is_dropped_witness :
  let run := Client.handleSubmit Sample.no_executables Sample.endpoint
               (Some {| Client.id := Sample.alice |}) Sample.the_form
               Sample.complaint_draw
               [Sample.item Sample.recording 1700000000000 "a1";
                Sample.item Sample.photo 1700000000001 "a2"]
               Sample.campus in
  snd run = Client.Success
  ∧ Client.object_of {| Client.id := Sample.alice |}
      (Sample.broken_ac "c9" Sample.alice 30)
      (Sample.item Sample.recording 1700000000000 "a1") ∈ objects (fst run)
  ∧ a_id <$> complaint_attachments (fst run) = ["a2"].
Proof.
  destruct (unchecked_insert_is_dropped Sample.no_executables Sample.endpoint
              {| Client.id := Sample.alice |} Sample.the_form
              Sample.complaint_draw []
              (Sample.item Sample.recording 1700000000000 "a1")
              [Sample.item Sample.photo 1700000000001 "a2"]
              Sample.campus
              (with_complaints [Sample.broken_ac "c9" Sample.alice 30]
                 Sample.campus)
              (with_complaints [Sample.broken_ac "c9" Sample.alice 30]
                 Sample.campus)
              (with_objects
                 [Client.object_of {| Client.id := Sample.alice |}
                    (Sample.broken_ac "c9" Sample.alice 30)
                    (Sample.item Sample.recording 1700000000000 "a1")]
                 (with_complaints [Sample.broken_ac "c9" Sample.alice 30]
                    Sample.campus))
              (Sample.broken_ac "c9" Sample.alice 30)
              numeric_value_out_of_range)
    as (_ & _ & _ & Hsuccess & Hobject & _).
  - vm_compute. reflexivity.
  - reflexivity.
  - vm_compute. reflexivity.
  - vm_compute. reflexivity.
  - split; [apply Hsuccess; vm_compute; reflexivity|].
    split; [exact Hobject|]. vm_compute. reflexivity.
Defined.

(** C10 as the specification words it fails: after the unchecked insert
    failure for the recording, the installer's refusal is reported, not a
    success. *)
Lemma unchecked_insert_reported_as_success_counterexample :
  ¬ (∀ accepts endpoint user f d before it rest db db0 db1 db2 c e,
       Client.insert_complaint_returning user f d db = Ok (db0, c) →
       Client.upload_loop accepts endpoint user c before db0 = (db1, None) →
       Storage.upload accepts (Client.session_of user) db1
         Storage.attachments_bucket (Client.fileName c it) (Client.file it)
       = Ok db2 →
       Client.insert_attachment_request user db2 (c_id c)
         (Storage.File.name (Client.file it))
         (Storage.getPublicUrl endpoint Storage.attachments_bucket
            (Client.fileName c it))
         (Storage.File.type (Client.file it))
         (Storage.File.size (Client.file it)) (Client.row_drawn it) = Err e →
       snd (Client.handleSubmit accepts endpoint (Some user) f d
              (before ++ it :: rest) db) = Client.Success).
Proof.
  intros H.
  specialize (H Sample.no_executables Sample.endpoint
                {| Client.id := Sample.alice |} Sample.the_form
                Sample.complaint_draw []
                (Sample.item Sample.recording 1700000000000 "a1")
                [Sample.item Sample.installer 1700000000001 "a2"]
                Sample.campus
                (with_complaints [Sample.broken_ac "c9" Sample.alice 30]
                   Sample.campus)
                (with_complaints [Sample.broken_ac "c9" Sample.alice 30]
                   Sample.campus)
                (with_objects
                   [Client.object_of {| Client.id := Sample.alice |}
                      (Sample.broken_ac "c9" Sample.alice 30)
                      (Sample.item Sample.recording 1700000000000 "a1")]
                   (with_complaints [Sample.broken_ac "c9" Sample.alice 30]
                      Sample.campus))
                (Sample.broken_ac "c9" Sample.alice 30)
                numeric_value_out_of_range).
  vm_compute in H. specialize (H eq_refl eq_refl eq_refl eq_refl). discriminate.
Qed.

(** * Further properties *)

(** ** Splitting text *)

Lemma join_cons sep piece piece' pieces :
  join sep (piece :: piece' :: pieces)
  = piece +:+ String sep (join sep (piece' :: pieces)).
Proof. done. Qed.

Lemma split_join sep s : join sep (split sep s) = s.
Proof.
  induction s as [|c s IH]; [done|]. rewrite split_String.
  destruct (Ascii.eqb c sep) eqn:Hc.
  - apply Ascii.eqb_eq in Hc as ->.
    pose proof (split_nonempty sep s) as Hne.
    destruct (split sep s) as [|piece pieces]; [done|].
    rewrite join_cons. by rewrite IH.
  - pose proof (split_nonempty sep s) as Hne.
    destruct (split sep s) as [|piece pieces]; [done|].
    destruct pieces as [|piece' pieces].
    + unfold join in *. simpl in *. by rewrite IH.
    + rewrite join_cons. rewrite join_cons in IH. by rewrite <- IH.
Qed.

Lemma split_pieces sep s : Forall (fun piece => occurs sep piece = false) (split sep s).
Proof.
  induction s as [|c s IH]; [by repeat constructor|]. rewrite split_String.
  destruct (Ascii.eqb c sep) eqn:Hc.
  - by constructor.
  - destruct (split sep s) as [|piece pieces].
    { constructor; [simpl; by rewrite Hc | constructor]. }
    apply Forall_cons in IH as [Hpiece Hpieces].
    constructor; [|done]. simpl. by rewrite Hc, Hpiece.
Qed.

(** [split] cuts a text at every separator and nowhere else: no piece holds
    the separator, there is always at least one piece, and putting the pieces
    together with the separator in between gives the text back. *)
Theorem split_cuts_at_every_separator (sep : Ascii.ascii) (s : string) :
  join sep (split sep s) = s
  ∧ Forall (fun piece => occurs sep piece = false) (split sep s)
  ∧ split sep s ≠ [].
Proof.
  split; [apply split_join|]. split; [apply split_pieces|apply split_nonempty].
Qed.




Lemma split_no_separator sep s : occurs sep s = false → split sep s = [s].
Proof.
  induction s as [|c s IH]; [done|]. simpl. intros H.
  apply orb_false_iff in H as [Hc Hs]. by rewrite Hc, IH.
Qed.



(** ** The dialog's file list *)

Lemma filter_index_all {A} (index from : nat) (l : list A) :
  (index < from)%nat →
  Dialog.filter_index (fun i => negb (Nat.eqb i index)) from l = l.
Proof.
  revert from. induction l as [|x l IH]; intros from Hlt; [done|]. simpl.
  destruct (Nat.eqb_spec from index) as [->|_]; [lia|]. simpl.
  by rewrite IH by lia.
Qed.

Lemma filter_index_skip {A} (from k : nat) (l : list A) :
  Dialog.filter_index (fun i => negb (Nat.eqb i (from + k))) from l
  = take k l ++ drop (S k) l.
Proof.
  revert from k. induction l as [|x l IH]; intros from k.
  - by destruct k.
  - simpl. destruct k as [|k].
    + rewrite Nat.add_0_r, Nat.eqb_refl. simpl.
      rewrite drop_0. apply filter_index_all. lia.
    + destruct (Nat.eqb_spec from (from + S k)) as [Heq|_]; [lia|]. simpl.
      f_equal. replace (from + S k)%nat with (S from + k)%nat by lia. apply IH.
Qed.

(** Removing a file from the dialog's list takes out the entry at that
    position and nothing else: the entries before it and after it stay, in
    order. A position beyond the end leaves the list as it is. *)
Theorem removeFile_takes_out_one_entry (files : list Storage.File.t)
    (index : nat) :
  Dialog.removeFile files index = take index files ++ drop (S index) files
  ∧ (∀ i, (i < index)%nat → Dialog.removeFile files index !! i = files !! i)
  ∧ (∀ i, (index ≤ i)%nat →
          Dialog.removeFile files index !! i = files !! S i)
  ∧ ((index < length files)%nat →
       S (length (Dialog.removeFile files index)) = length files)
  ∧ ((length files ≤ index)%nat → Dialog.removeFile files index = files).
Proof.
  assert (Hshape : Dialog.removeFile files index
                   = take index files ++ drop (S index) files)
    by apply (filter_index_skip 0 index files).
  split; [done|]. rewrite Hshape. split; [|split; [|split]].
  - intros i Hi. destruct (decide (index ≤ length files)%nat).
    + rewrite lookup_app_l by (rewrite length_take; lia).
      by rewrite lookup_take_lt.
    + rewrite take_ge, drop_ge, app_nil_r by lia. done.
  - intros i Hi. destruct (decide (index ≤ length files)%nat).
    + rewrite lookup_app_r by (rewrite length_take; lia).
      rewrite length_take, lookup_drop. f_equal. lia.
    + rewrite take_ge, drop_ge, app_nil_r by lia.
      rewrite !lookup_ge_None_2 by lia. done.
  - intros Hlt. rewrite length_app, length_take, length_drop. lia.
  - intros Hge. by rewrite take_ge, drop_ge, app_nil_r by lia.
Qed.

Lemma removeFile_takes_out_one_entry_witness :
  Dialog.removeFile [Sample.photo; Sample.recording; Sample.installer] 1
  = [Sample.photo; Sample.installer]
  ∧ Dialog.removeFile [Sample.photo; Sample.recording; Sample.installer] 1 !! 0%nat
    = Some Sample.photo
  ∧ Dialog.removeFile [Sample.photo; Sample.recording; Sample.installer] 1 !! 1%nat
    = Some Sample.installer
  ∧ length (Dialog.removeFile [Sample.photo; Sample.recording; Sample.installer] 1)
    = 2%nat
  ∧ Dialog.removeFile [Sample.photo] 3 = [Sample.photo].
Proof.
  destruct (removeFile_takes_out_one_entry
              [Sample.photo; Sample.recording; Sample.installer] 1)
    as (Hshape & Hbefore & Hafter & Hlen & _).
  destruct (removeFile_takes_out_one_entry [Sample.photo] 3)
    as (_ & _ & _ & _ & Hout).
  split; [exact Hshape|]. split; [apply Hbefore; lia|].
  split; [apply Hafter; lia|]. split.
  - apply eq_add_S. apply Hlen. simpl. lia.
  - apply Hout. simpl. lia.
Defined.

(** ** Who may delete a stored object *)

(** [remove] never adds an object and takes an object away exactly when the
    object is the one named, lies in the attachments bucket, and the caller is
    signed in as the account whose identifier is the first path segment of the
    object's name. *)
Theorem remove_is_gated_by_first_segment (s : session) (db : database)
    (bucket path : string) (o : storage_object) :
  o ∈ objects db →
  objects (Storage.remove s db bucket path) `sublist_of` objects db
  ∧ (o ∉ objects (Storage.remove s db bucket path)
     ↔ bucket_id o = bucket ∧ name o = path
       ∧ bucket = Storage.attachments_bucket
       ∧ ∃ uid, s = Authenticated uid
                ∧ Storage.first_element (Storage.foldername path) = Some uid).
Proof.
  intros Hin. split; [apply sublist_filter|]. simpl.
  rewrite list_elem_of_filter.
  unfold Storage.authenticated_users_can_view_attachments,
    Storage.users_can_delete_own_attachments.
  split.
  - intros Hgone.
    destruct (decide (bucket_id o = bucket)) as [Hb|Hb]; [|destruct Hgone; tauto].
    destruct (decide (name o = path)) as [Hn|Hn]; [|destruct Hgone; tauto].
    destruct (decide (bucket_id o = Storage.attachments_bucket)) as [Ha|Ha].
    + destruct s as [|uid].
      * destruct Hgone. split; [|done]. intros (_ & _ & H & _). done.
      * destruct (decide (Some uid
                          = Storage.first_element
                              (Storage.foldername (name o)))) as [Hu|Hu].
        { subst. repeat split; [done|]. by exists uid. }
        destruct Hgone. split; [|done]. intros (_ & _ & _ & H).
        simpl in H. apply andb_true_iff in H as [_ H].
        apply bool_decide_eq_true in H as [_ H]. done.
    + destruct Hgone. split; [|done]. intros (_ & _ & H & _).
      apply andb_true_iff in H as [_ H]. by apply bool_decide_eq_true in H.
  - intros (Hb & Hn & Ha & uid & -> & Hu) [Hkeep _]. apply Hkeep.
    assert (bool_decide (bucket_id o = Storage.attachments_bucket) = true)
      as Hbucket by (apply bool_decide_eq_true_2; congruence).
    split; [done|]. split; [done|]. simpl. rewrite Hbucket.
    split; [done|]. simpl. apply bool_decide_eq_true_2.
    split; [by eexists|]. by rewrite Hn, Hu.
Qed.

Lemma remove_is_gated_by_first_segment_witness :
  (Example.under_alice
   ∉ objects (Storage.remove (Authenticated Sample.alice)
                Example.campus_with_objects "complaint-attachments"
                "a11ce/notes.pdf"))
  ∧ (Example.under_complaint
     ∈ objects (Storage.remove (Authenticated Sample.alice)
                  Example.campus_with_objects "complaint-attachments"
                  "c1/1700000000000.png")).
Proof.
  split.
  - destruct (remove_is_gated_by_first_segment (Authenticated Sample.alice)
                Example.campus_with_objects "complaint-attachments"
                "a11ce/notes.pdf" Example.under_alice) as [_ Hgone];
      [simpl; left|].
    apply Hgone. split; [done|]. split; [done|]. split; [done|].
    by exists Sample.alice.
  - destruct (remove_is_gated_by_first_segment (Authenticated Sample.alice)
                Example.campus_with_objects "complaint-attachments"
                "c1/1700000000000.png" Example.under_complaint)
      as [_ Hgone]; [simpl; right; left|].
    destruct (decide (Example.under_complaint
                      ∈ objects (Storage.remove (Authenticated Sample.alice)
                                   Example.campus_with_objects
                                   "complaint-attachments"
                                   "c1/1700000000000.png"))) as [Hin|Hout];
      [exact Hin|].
    apply Hgone in Hout as (_ & _ & _ & uid & Hs & Hseg).
    injection Hs as <-. vm_compute in Hseg. discriminate.
Defined.

(** An object the dialog has stored for a complaint can be deleted by the
    session whose account identifier reads like the complaint's identifier,
    and by no other: the account that uploaded it is refused unless its
    identifier happens to be that text. *)
Theorem uploaded_object_is_deletable_under_the_complaint_id (s : session)
    (user : Client.User) (c : complaint) (it : Client.upload_item) :
  occurs "/" (c_id c) = false →
  (Storage.users_can_delete_own_attachments s (Client.object_of user c it)
   = true ↔ s = Authenticated (c_id c))
  ∧ (Client.id user ≠ c_id c →
     ∀ db, Client.object_of user c it ∈ objects db →
       Client.object_of user c it
       ∈ objects (Storage.remove (Client.session_of user) db
                    Storage.attachments_bucket (Client.fileName c it))).
Proof.
  intros Hid.
  assert (Hverdict :
    Storage.users_can_delete_own_attachments s (Client.object_of user c it)
    = true ↔ s = Authenticated (c_id c)).
  { unfold Storage.users_can_delete_own_attachments. simpl.
    rewrite fileName_first_segment by done. split.
    - intros H. apply andb_true_iff in H as [Hs H].
      apply bool_decide_eq_true in H as [_ H]. destruct s; [done|].
      simpl in H. by injection H as ->.
    - intros ->. simpl. rewrite bool_decide_eq_true_2; [done|].
      split; [by eexists|done]. }
  split; [done|]. intros Hne db Hin. simpl. apply list_elem_of_filter.
  split; [|done]. intros (_ & _ & _ & Hdel).
  unfold Storage.users_can_delete_own_attachments in Hdel. simpl in Hdel.
  rewrite fileName_first_segment in Hdel by done.
  apply bool_decide_eq_true in Hdel as [_ Hdel]. by injection Hdel.
Qed.

Lemma uploaded_object_is_deletable_under_the_complaint_id_witness :
  Client.object_of Example.alice_user (Sample.broken_ac "c1" Sample.alice 10)
    (Sample.item Sample.photo 1700000000000 "a1")
  ∈ objects (Storage.remove (Authenticated Sample.alice)
               Example.campus_with_objects "complaint-attachments"
               "c1/1700000000000.png").
Proof.
  destruct (uploaded_object_is_deletable_under_the_complaint_id
              (Authenticated Sample.alice) Example.alice_user
              (Sample.broken_ac "c1" Sample.alice 10)
              (Sample.item Sample.photo 1700000000000 "a1") eq_refl)
    as [_ Hkept].
  apply (Hkept ltac:(discriminate) Example.campus_with_objects).
  compute_done.
Defined.

(** ** More on the upload loop *)

Section upload_loop_more.

Import Storage Client.

Context (accepts : File.t → bool) (endpoint : string) (user : User)
        (c : complaint).

(** After the storage write, with the row insert done or dropped, the stored
    objects are those before plus the new one. *)
Lemma upload_step_objects it db db1 :
  upload accepts (session_of user) db attachments_bucket (fileName c it)
    (file it) = Ok db1 →
  objects
    match insert_attachment_request user db1 (c_id c) (File.name (file it))
            (getPublicUrl endpoint attachments_bucket (fileName c it))
            (File.type (file it)) (File.size (file it)) (row_drawn it) with
    | Ok db' => db'
    | Err _ => db1
    end
  = objects db ++ [object_of user c it].
Proof.
  intros Hup. apply upload_object in Hup as ->.
  destruct (insert_attachment_request _ _ _ _ _ _ _ _) as [db2|e] eqn:Hins;
    [|done].
  by apply insert_attachment_request_row in Hins as ->.
Qed.


End upload_loop_more.



(** Two files handled within the same millisecond that have the same
    extension get the same object name: once the first is stored, the storage
    write of the second is refused as a duplicate, which ends the loop; the
    second file and all files after it are not stored. *)
Theorem same_millisecond_same_extension_collide
    (accepts : Storage.File.t → bool) (endpoint : string) (user : Client.User)
    (c : complaint) (first second : Client.upload_item)
    (rest : list Client.upload_item) (db db1 : database) :
  Client.date_now first = Client.date_now second →
  Client.fileExt (Client.file first) = Client.fileExt (Client.file second) →
  accepts (Client.file second) = true →
  Storage.upload accepts (Client.session_of user) db
    Storage.attachments_bucket (Client.fileName c first) (Client.file first)
  = Ok db1 →
  let run := Client.upload_loop accepts endpoint user c
               (first :: second :: rest) db in
  snd run = Some resource_already_exists
  ∧ objects (fst run) = objects db ++ [Client.object_of user c first].
Proof.
  intros Hnow Hext Hacc Hup run.
  assert (Hname : Client.fileName c second = Client.fileName c first).
  { unfold Client.fileName. by rewrite Hnow, Hext. }
  pose proof (upload_step_objects accepts endpoint user c first db db1 Hup)
    as Hobj.
  unfold run. simpl. rewrite Hup.
  set (db2 := match Client.insert_attachment_request _ _ _ _ _ _ _ _ with
              | Ok db' => db'
              | Err _ => db1
              end) in *.
  assert (Hdup : Storage.upload accepts (Client.session_of user) db2
                   Storage.attachments_bucket (Client.fileName c second)
                   (Client.file second) = Err resource_already_exists).
  { unfold Storage.upload. rewrite Hacc. simpl.
    rewrite bool_decide_eq_false_2; [done|]. intros Hfresh. apply Hfresh.
    rewrite Hobj, fmap_app, Hname. apply elem_of_app. right. simpl. left. }
  by rewrite Hdup.
Qed.

Lemma same_millisecond_same_extension_collide_witness :
  let run := Client.upload_loop Sample.no_executables Sample.endpoint
               Example.alice_user (Sample.broken_ac "c1" Sample.alice 10)
               [Sample.item Sample.photo 1700000000000 "a1";
                Sample.item Example.scan 1700000000000 "a2"]
               Sample.campus_with_complaints in
  snd run = Some resource_already_exists
  ∧ name <$> objects (fst run) = ["c1/1700000000000.png"].
Proof.
  intros run.
  destruct (same_millisecond_same_extension_collide Sample.no_executables
              Sample.endpoint Example.alice_user
              (Sample.broken_ac "c1" Sample.alice 10)
              (Sample.item Sample.photo 1700000000000 "a1")
              (Sample.item Example.scan 1700000000000 "a2") []
              Sample.campus_with_complaints
              (with_objects
                 [Client.object_of Example.alice_user
                    (Sample.broken_ac "c1" Sample.alice 10)
                    (Sample.item Sample.photo 1700000000000 "a1")]
                 Sample.campus_with_complaints))
    as [Herr Hobj]; [reflexivity|reflexivity|reflexivity|reflexivity|].
  split; [exact Herr|]. fold run in Hobj. by rewrite Hobj.
Defined.

(** ** What an [UPDATE] rewrites *)

Lemma update_each_rows {A} (f : list A → A → outcome A) (todo done rows : list A) :
  update_each f done todo = Ok rows →
  ∃ news, rows = done ++ news
          ∧ Forall2 (fun old new => ∃ others, f others old = Ok new) todo news.
Proof.
  revert done. induction todo as [|row rest IH]; intros done H; simpl in H.
  - injection H as <-. exists []. by rewrite app_nil_r.
  - apply bind_Ok in H as (row' & Hf & H).
    apply IH in H as (news & -> & Hnews).
    exists (row' :: news). rewrite <- app_assoc. split; [done|].
    constructor; [by eexists|done].
Qed.

Lemma update_each_untouched {A} (f : list A → A → outcome A) (todo done : list A) :
  (∀ others row, row ∈ todo → f others row = Ok row) →
  update_each f done todo = Ok (done ++ todo).
Proof.
  revert done. induction todo as [|row rest IH]; intros done Hf; simpl.
  - by rewrite app_nil_r.
  - rewrite Hf by left. simpl. rewrite IH.
    + by rewrite <- app_assoc.
    + intros others row' Hin. apply Hf. by right.
Qed.

Lemma Forall2_fmap_fun {A} (g : A → A) (l k : list A) :
  Forall2 (fun old new => new = g old) l k → k = g <$> l.
Proof. induction 1 as [|old new l k -> _ IH]; [done|]. simpl. by rewrite IH. Qed.

Lemma with_complaints_same db : with_complaints (complaints db) db = db.
Proof. by destruct db. Qed.

Lemma with_profiles_same db : with_profiles (profiles db) db = db.
Proof. by destruct db. Qed.

Lemma with_user_roles_same db : with_user_roles (user_roles db) db = db.
Proof. by destruct db. Qed.

Lemma with_objects_same db : with_objects (objects db) db = db.
Proof. by destruct db. Qed.

Lemma update_complaint_row_Ok s db now qual assign others OLD NEW :
  update_complaint_row s db now qual assign others OLD = Ok NEW →
  NEW = if complaint_update_touches s db qual OLD
        then update_updated_at_column now (assign OLD) else OLD.
Proof.
  unfold update_complaint_row, complaint_update_touches.
  destruct (_ && _ && qual OLD); intros H.
  - ok_inv H. done.
  - by injection H.
Qed.

Lemma update_complaints_Ok s db now qual assign db' :
  update_complaints s db now qual assign = Ok db' →
  db' = with_complaints
          ((fun OLD => if complaint_update_touches s db qual OLD
                       then update_updated_at_column now (assign OLD)
                       else OLD) <$> complaints db) db.
Proof.
  unfold update_complaints. intros H.
  apply bind_Ok in H as (rows & Hrows & H). injection H as <-.
  apply update_each_rows in Hrows as (news & -> & Hnews). simpl. f_equal.
  apply Forall2_fmap_fun. eapply Forall2_impl; [exact Hnews|].
  intros old new [others Hrow]. by eapply update_complaint_row_Ok.
Qed.

(** A successful [UPDATE] on [complaints] rewrites exactly the rows that the
    caller may update and that meet the [WHERE] clause, each independently of
    the others; every rewritten row carries the statement's [now()] in
    [updated_at], whatever the statement assigns to that column; all other
    rows and all other tables are as before. *)
Theorem complaint_update_stamps_updated_at (s : session) (db db' : database)
    (now : timestamptz) (qual : complaint → bool)
    (assign : complaint → complaint) :
  update_complaints s db now qual assign = Ok db' →
  db' = with_complaints
          ((fun OLD => if complaint_update_touches s db qual OLD
                       then update_updated_at_column now (assign OLD)
                       else OLD) <$> complaints db) db
  ∧ Forall2
      (fun OLD NEW =>
         if complaint_update_touches s db qual OLD
         then c_updated_at NEW = now ∧ c_id NEW = c_id (assign OLD)
              ∧ status NEW = status (assign OLD)
              ∧ c_created_at NEW = c_created_at (assign OLD)
         else NEW = OLD)
      (complaints db) (complaints db').
Proof.
  intros H. apply update_complaints_Ok in H. split; [done|]. subst db'.
  simpl. apply Forall2_fmap_r, Forall_Forall2_diag, Forall_forall.
  intros OLD _. simpl. by destruct (complaint_update_touches s db qual OLD).
Qed.

Lemma complaint_update_stamps_updated_at_witness :
  ∃ db', update_complaints (Authenticated Sample.alice)
           Sample.campus_with_complaints 99 (Sample.by_id "c1")
           (fun c => set_updated_at 7 (Sample.set_status resolved c)) = Ok db'
         ∧ c_updated_at <$> complaints db' = [99; 20]
         ∧ status <$> complaints db' = [resolved; new].
Proof.
  destruct (update_complaints (Authenticated Sample.alice)
              Sample.campus_with_complaints 99 (Sample.by_id "c1")
              (fun c => set_updated_at 7 (Sample.set_status resolved c)))
    as [db'|e] eqn:Hrun; [|vm_compute in Hrun; discriminate].
  exists db'. split; [done|].
  destruct (complaint_update_stamps_updated_at _ _ _ _ _ _ Hrun) as [-> _].
  split; vm_compute; reflexivity.
Defined.

Lemma not_owned_not_touched s db qual OLD :
  has_role db (auth_uid s) admin = false →
  auth_uid s ≠ Some (c_user_id OLD) →
  complaint_update_touches s db qual OLD = false.
Proof.
  intros Hrole Hown. unfold complaint_update_touches,
    Policy.admins_can_update_any_complaint,
    Policy.users_can_update_own_complaints.
  rewrite Hrole, andb_false_r, orb_false_r.
  destruct (sql_eq (auth_uid s) (c_user_id OLD)) eqn:Heq.
  - by apply sql_eq_true in Heq.
  - by rewrite !andb_false_r.
Qed.

(** An [UPDATE] on [complaints] sent by a session without the admin role
    leaves every complaint of another account exactly as it was. When none of
    the rows the [WHERE] clause selects is the session's own, the statement
    does not fail: it returns and the database is unchanged. *)
Theorem non_admin_update_reaches_own_complaints_only (s : session)
    (db : database) (now : timestamptz) (qual : complaint → bool)
    (assign : complaint → complaint) :
  has_role db (auth_uid s) admin = false →
  (∀ db', update_complaints s db now qual assign = Ok db' →
     Forall2 (fun OLD NEW => auth_uid s ≠ Some (c_user_id OLD) → NEW = OLD)
       (complaints db) (complaints db'))
  ∧ ((∀ c, c ∈ complaints db → qual c = true →
           auth_uid s ≠ Some (c_user_id c)) →
     update_complaints s db now qual assign = Ok db).
Proof.
  intros Hrole. split.
  - intros db' H. apply update_complaints_Ok in H as ->. simpl.
    apply Forall2_fmap_r, Forall_Forall2_diag, Forall_forall.
    intros OLD _ Hown. simpl. by rewrite not_owned_not_touched.
  - intros Hnone. unfold update_complaints.
    rewrite update_each_untouched.
    + simpl. by rewrite with_complaints_same.
    + intros others row Hin. unfold update_complaint_row.
      fold (complaint_update_touches s db qual row).
      destruct (qual row) eqn:Hq.
      * by rewrite not_owned_not_touched by auto.
      * unfold complaint_update_touches. by rewrite Hq, andb_false_r.
Qed.

Lemma non_admin_update_reaches_own_complaints_only_witness :
  update_complaints (Authenticated Sample.bob) Sample.campus_with_complaints
    50 (Sample.by_id "c1") (Sample.set_status closed)
  = Ok Sample.campus_with_complaints.
Proof.
  apply (non_admin_update_reaches_own_complaints_only (Authenticated Sample.bob)
           Sample.campus_with_complaints 50 (Sample.by_id "c1")
           (Sample.set_status closed)).
  - reflexivity.
  - intros c Hin Hq. simpl in Hin.
    apply elem_of_cons in Hin as [->|Hin]; [simpl; discriminate|].
    apply list_elem_of_singleton in Hin as ->. vm_compute in Hq. discriminate.
Defined.

(** ** Profiles *)

Lemma update_profile_row_Ok s db now qual assign others OLD NEW :
  update_profile_row s db now qual assign others OLD = Ok NEW →
  (profile_update_touches s qual OLD = false ∧ NEW = OLD)
  ∨ (profile_update_touches s qual OLD = true
     ∧ NEW = update_updated_at_column now (assign OLD)
     ∧ auth_uid s = Some (p_id OLD) ∧ auth_uid s = Some (p_id NEW)).
Proof.
  unfold update_profile_row, profile_update_touches.
  destruct (_ && _ && qual OLD) eqn:Htouch; intros H.
  - right. apply bind_Ok in H as (? & Hcheck & H). apply guard_Ok in Hcheck.
    ok_inv H. subst NEW. split; [done|]. split; [done|].
    apply andb_true_iff in Htouch as [Htouch _].
    apply andb_true_iff in Htouch as [_ Hold].
    unfold Policy.users_can_update_own_profile in Hold, Hcheck.
    apply andb_true_iff in Hold as [_ Hold].
    apply andb_true_iff in Hcheck as [_ Hcheck].
    by apply sql_eq_true in Hold, Hcheck.
  - left. by injection H.
Qed.

(** A successful [UPDATE] on [profiles] changes no profile but the session's
    own, cannot move a profile to another account, and puts the statement's
    [now()] into [updated_at] of the profile it rewrites; a session that is
    not signed in changes nothing. *)
Theorem profile_update_reaches_own_profile_only (s : session)
    (db db' : database) (now : timestamptz) (qual : profile → bool)
    (assign : profile → profile) :
  update_profiles s db now qual assign = Ok db' →
  db' = with_profiles (profiles db') db
  ∧ Forall2
      (fun OLD NEW =>
         p_id NEW = p_id OLD
         ∧ (auth_uid s ≠ Some (p_id OLD) → NEW = OLD)
         ∧ (NEW = OLD ∨ p_updated_at NEW = now))
      (profiles db) (profiles db').
Proof.
  unfold update_profiles. intros H.
  apply bind_Ok in H as (rows & Hrows & H). injection H as <-.
  split; [done|]. simpl.
  apply update_each_rows in Hrows as (news & -> & Hnews). simpl.
  eapply Forall2_impl; [exact Hnews|].
  intros OLD NEW [others Hrow].
  apply update_profile_row_Ok in Hrow
    as [[_ ->]|(_ & -> & Hold & Hnew)]; [by auto|].
  split; [congruence|]. split; [done|]. by right.
Qed.

Lemma profile_update_reaches_own_profile_only_witness :
  ∃ db', update_profiles (Authenticated Sample.alice) Sample.campus 60
           (fun _ => true)
           (fun p => Sample.blank_profile (p_id p) "Alice L.") = Ok db'
         ∧ p_id <$> profiles db' = p_id <$> profiles Sample.campus
         ∧ full_name <$> profiles db'
           = [Some "Alice L."; Some "Bob"; Some "Root"]
         ∧ p_updated_at <$> profiles db' = [60; 0; 0].
Proof.
  destruct (update_profiles (Authenticated Sample.alice) Sample.campus 60
              (fun _ => true)
              (fun p => Sample.blank_profile (p_id p) "Alice L."))
    as [db'|e] eqn:Hrun; [|vm_compute in Hrun; discriminate].
  exists db'. split; [done|].
  destruct (profile_update_reaches_own_profile_only _ _ _ _ _ _ Hrun)
    as [_ Hrows].
  split.
  - symmetry. apply list_eq_Forall2, Forall2_fmap.
    eapply Forall2_impl; [exact Hrows|]. intros OLD NEW (Hid & _). done.
  - vm_compute in Hrun. injection Hrun as <-. done.
Defined.

(** ** Who can change role assignments *)

Lemma not_admin_no_role_policy s db row :
  has_role db (auth_uid s) admin = false →
  Policy.only_admins_can_manage_roles s db row = false.
Proof.
  intros H. unfold Policy.only_admins_can_manage_roles.
  by rewrite H, andb_false_r.
Qed.

Lemma filter_fmap_sublist_elem {A} (P : A → Prop) `{∀ x, Decision (P x)}
    (l : list A) (x : A) : x ∈ filter P l → x ∈ l.
Proof. intros Hx. by apply list_elem_of_filter in Hx as [_ Hx]. Qed.

(** What a returned statement does to [user_roles] when the session does not
    hold the admin role. *)
Lemma exec_user_roles_not_admin s c db db' :
  has_role db (auth_uid s) admin = false →
  exec s c db = Ok db' →
  match c with
  | SignUp NEW rid now =>
      user_roles db'
      = user_roles db ++ [user_roles_values rid (u_id NEW) student now]
  | DeleteAccount uid =>
      user_roles db' = filter (fun r => ur_user_id r ≠ uid) (user_roles db)
  | _ => user_roles db' = user_roles db
  end.
Proof.
  intros Hrole H. destruct c; simpl in H.
  - by apply on_auth_user_created_Ok in H as (_ & _ & ->).
  - by injection H as <-.
  - unfold insert_user_role in H.
    by rewrite not_admin_no_role_policy in H.
  - unfold update_user_roles in H.
    rewrite update_each_untouched in H.
    + simpl in H. by injection H as <-.
    + intros others row _. unfold update_user_role_row.
      by rewrite not_admin_no_role_policy, andb_false_r.
  - injection H as <-. simpl. apply filter_all. intros row (_ & Hrow & _).
    by rewrite not_admin_no_role_policy in Hrow.
  - unfold insert_complaint in H. apply bind_Ok in H as (? & _ & H).
    by apply table_insert_complaint_Ok in H as ->.
  - unfold update_complaints in H. apply bind_Ok in H as (? & _ & H).
    by injection H as <-.
  - unfold insert_complaint_attachment in H. apply bind_Ok in H as (? & _ & H).
    by apply table_insert_complaint_attachment_Ok in H as ->.
  - unfold insert_status_history in H. apply bind_Ok in H as (? & _ & H).
    by apply table_insert_status_history_Ok in H as ->.
  - unfold insert_admin_note in H. apply bind_Ok in H as (? & _ & H).
    by apply table_insert_admin_note_Ok in H as ->.
  - by apply upload_Ok in H as [_ ->].
  - by injection H as <-.
  - injection H as <-. by rewrite handleSubmit_user_roles.
  - unfold update_profiles in H. apply bind_Ok in H as (? & _ & H).
    by injection H as <-.
Qed.

(** No statement sent by a session that does not hold the admin role changes
    a role assignment: inserts are refused, updates and deletes find no row
    they may touch, and nothing else writes to the table. Together with the
    identity provider's two statements, of which one adds a [student] row and
    the other only removes rows, this means that no account gains the admin
    role unless an admin's statement grants it. *)
Theorem roles_change_only_through_admins (s : session) (c : command)
    (db : database) :
  has_role db (auth_uid s) admin = false →
  (by_identity_provider c = false →
     user_roles (after s c db) = user_roles db)
  ∧ (∀ uid, has_role (after s c db) (Some uid) admin = true →
            has_role db (Some uid) admin = true).
Proof.
  intros Hrole. unfold after.
  destruct (exec s c db) as [db'|e] eqn:H; [|done].
  pose proof (exec_user_roles_not_admin s c db db' Hrole H) as Hroles.
  split.
  - intros Hc. by destruct c.
  - intros uid Hadmin. apply has_role_row in Hadmin as (row & Hin & Hu & Hr).
    apply has_role_row. exists row. split; [|done].
    destruct c; try (by rewrite Hroles in Hin).
    + rewrite Hroles in Hin. apply elem_of_app in Hin as [Hin|Hin]; [done|].
      apply list_elem_of_singleton in Hin. subst row. discriminate.
    + rewrite Hroles in Hin. by apply list_elem_of_filter in Hin as [_ Hin].
Qed.

Lemma roles_change_only_through_admins_witness :
  user_roles (after (Authenticated Sample.alice)
                (InsertRole (Sample.role_row "r9" Sample.alice admin))
                Sample.campus) = user_roles Sample.campus
  ∧ user_roles (after (Authenticated Sample.alice)
                  (DeleteRoles (fun _ => true)) Sample.campus)
    = user_roles Sample.campus
  ∧ has_role (after (Authenticated Sample.alice)
                (UpdateRoles (fun _ => true)
                   (fun r => Sample.role_row (ur_id r) (ur_user_id r) admin))
                Sample.campus) (Some Sample.alice) admin = false.
Proof.
  split; [|split].
  - apply (roles_change_only_through_admins (Authenticated Sample.alice)
             (InsertRole (Sample.role_row "r9" Sample.alice admin))
             Sample.campus); reflexivity.
  - apply (roles_change_only_through_admins (Authenticated Sample.alice)
             (DeleteRoles (fun _ => true)) Sample.campus); reflexivity.
  - destruct (has_role _ (Some Sample.alice) admin) eqn:Hgain; [|done].
    apply (roles_change_only_through_admins (Authenticated Sample.alice)
             _ Sample.campus eq_refl) in Hgain.
    vm_compute in Hgain. discriminate.
Defined.

(** ** Sessions that are not signed in *)

Lemma update_each_same {A} (f : list A → A → outcome A) (l : list A) :
  (∀ others row, f others row = Ok row) → update_each f [] l = Ok l.
Proof. intros Hf. by rewrite update_each_untouched. Qed.

(** Every policy is [TO authenticated]: a session that is not signed in reads
    no row of any table, and no statement it sends changes the database. The
    dashboard of a visitor who is not signed in lists nothing, and the dialog
    does nothing. *)
Theorem anonymous_sessions_read_and_write_nothing (db : database) :
  select_complaints Anon db = []
  ∧ select_user_roles Anon db = []
  ∧ select_admin_notes Anon db = []
  ∧ (∀ isAdmin, Client.queryFn None isAdmin db = [])
  ∧ (∀ accepts endpoint f d files,
       Client.handleSubmit accepts endpoint None f d files db
       = (db, Client.Silent))
  ∧ (∀ c, by_identity_provider c = false → after Anon c db = db).
Proof.
  split; [by apply filter_none|]. split; [apply select_user_roles_anon|].
  split; [by apply filter_none|]. split; [done|]. split; [done|].
  intros c Hc. unfold after. destruct c; try discriminate; simpl; try done.
  - unfold update_user_roles. rewrite update_each_same by done. simpl.
    apply with_user_roles_same.
  - unfold delete_user_roles. rewrite filter_all.
    + apply with_user_roles_same.
    + intros row (_ & Hrow & _). done.
  - unfold update_complaints. rewrite update_each_same by done. simpl.
    apply with_complaints_same.
  - unfold Storage.upload. by destruct (accepts file).
  - unfold Storage.remove. rewrite filter_all.
    + apply with_objects_same.
    + intros o (_ & _ & Ho & _). done.
  - unfold update_profiles. rewrite update_each_same by done. simpl.
    apply with_profiles_same.
Qed.

(** ** Everything a returned insert has checked *)

Lemma table_insert_user_inv db row db' :
  table_insert_user db row = Ok db' →
  (u_id row ∉ u_id <$> users db)
  ∧ db' = with_users (users db ++ [row]) db.
Proof. unfold table_insert_user. intros H. ok_inv H. done. Qed.

Lemma table_insert_profile_inv db row db' :
  table_insert_profile db row = Ok db' →
  (p_id row ∉ p_id <$> profiles db)
  ∧ (p_id row ∈ u_id <$> users db)
  ∧ db' = with_profiles (profiles db ++ [row]) db.
Proof. unfold table_insert_profile. intros H. ok_inv H. done. Qed.

Lemma table_insert_user_role_inv db row db' :
  table_insert_user_role db row = Ok db' →
  (ur_id row ∉ ur_id <$> user_roles db)
  ∧ (role_key row ∉ role_key <$> user_roles db)
  ∧ (ur_user_id row ∈ u_id <$> users db)
  ∧ db' = with_user_roles (user_roles db ++ [row]) db.
Proof. unfold table_insert_user_role. intros H. ok_inv H. done. Qed.

Lemma table_insert_complaint_inv db row db' :
  table_insert_complaint db row = Ok db' →
  (c_id row ∉ c_id <$> complaints db)
  ∧ (c_user_id row ∈ u_id <$> users db)
  ∧ references_user db (assigned_to row) = true
  ∧ db' = with_complaints (complaints db ++ [row]) db.
Proof. unfold table_insert_complaint. intros H. ok_inv H. done. Qed.

Lemma table_insert_complaint_attachment_inv db row db' :
  table_insert_complaint_attachment db row = Ok db' →
  (a_id row ∉ a_id <$> complaint_attachments db)
  ∧ (a_complaint_id row ∈ c_id <$> complaints db)
  ∧ db' = with_complaint_attachments (complaint_attachments db ++ [row]) db.
Proof. unfold table_insert_complaint_attachment. intros H. ok_inv H. done. Qed.

Lemma table_insert_status_history_inv db row db' :
  table_insert_status_history db row = Ok db' →
  (h_id row ∉ h_id <$> complaint_status_history db)
  ∧ (h_complaint_id row ∈ c_id <$> complaints db)
  ∧ (changed_by row ∈ u_id <$> users db)
  ∧ db' = with_complaint_status_history
            (complaint_status_history db ++ [row]) db.
Proof. unfold table_insert_status_history. intros H. ok_inv H. done. Qed.

Lemma table_insert_admin_note_inv db row db' :
  table_insert_admin_note db row = Ok db' →
  (n_id row ∉ n_id <$> admin_notes db)
  ∧ (n_complaint_id row ∈ c_id <$> complaints db)
  ∧ (admin_id row ∈ u_id <$> users db)
  ∧ db' = with_admin_notes (admin_notes db ++ [row]) db.
Proof. unfold table_insert_admin_note. intros H. ok_inv H. done. Qed.

Lemma upload_inv accepts s db bucket path f db' :
  Storage.upload accepts s db bucket path f = Ok db' →
  accepts f = true
  ∧ (∃ uid, s = Authenticated uid)
  ∧ bucket = Storage.attachments_bucket
  ∧ ((bucket, path) ∉ object_key <$> objects db)
  ∧ db' = with_objects
            (objects db ++ [{| bucket_id := bucket; name := path;
                               owner := auth_uid s |}]) db.
Proof.
  unfold Storage.upload. intros H.
  apply bind_Ok in H as (? & Hacc & H). apply guard_Ok in Hacc.
  apply bind_Ok in H as (? & Hpol & H). apply guard_Ok in Hpol.
  apply bind_Ok in H as (? & Hfresh & H). apply guard_Ok in Hfresh.
  apply bool_decide_eq_true in Hfresh. injection H as <-.
  unfold Storage.authenticated_users_can_upload_attachments in Hpol.
  apply andb_true_iff in Hpol as [Hs Hb]. apply bool_decide_eq_true in Hb.
  simpl in Hb. split; [done|]. split; [destruct s; [done|by eexists]|].
  done.
Qed.

Lemma on_auth_user_created_inv db NEW rid now db' :
  on_auth_user_created db NEW rid now = Ok db' →
  (u_id NEW ∉ u_id <$> users db)
  ∧ (u_id NEW ∉ p_id <$> profiles db)
  ∧ (rid ∉ ur_id <$> user_roles db)
  ∧ ((u_id NEW, student) ∉ role_key <$> user_roles db)
  ∧ db' = with_user_roles
            (user_roles db ++ [user_roles_values rid (u_id NEW) student now])
            (with_profiles
               (profiles db
                ++ [profiles_values (u_id NEW)
                      (jsonb_get_text (raw_user_meta_data NEW) "full_name") now])
               (with_users (users db ++ [NEW]) db)).
Proof.
  unfold on_auth_user_created, handle_new_user. intros H.
  apply bind_Ok in H as (db1 & H1 & H).
  apply bind_Ok in H as (db2 & H2 & H).
  apply bind_Ok in H as (db3 & H3 & H). injection H as <-.
  apply table_insert_user_inv in H1 as [Hu ->].
  apply table_insert_profile_inv in H2 as (Hp & _ & ->).
  apply table_insert_user_role_inv in H3 as (Hrid & Hr & _ & ->).
  done.
Qed.

Lemma insert_complaint_returning_inv user f d db db' c :
  Client.insert_complaint_returning user f d db = Ok (db', c) →
  Client.priority_of_text (Client.form_priority f) = Ok (priority c)
  ∧ c = {| c_id := Client.new_id d; c_user_id := Client.id user;
           title := Client.form_title f;
           description := Client.form_description f;
           category := Client.form_category f; status := new;
           priority := priority c; is_anonymous := Client.isAnonymous f;
           assigned_to := None; upvotes := 0;
           c_created_at := Client.db_now d; c_updated_at := Client.db_now d |}
  ∧ table_insert_complaint db c = Ok db'.
Proof.
  unfold Client.insert_complaint_returning. intros H.
  apply bind_Ok in H as (p & Hp & H).
  apply bind_Ok in H as (db1 & Hins & H).
  apply bind_Ok in H as (? & _ & H). injection H as <- <-.
  unfold insert_complaint in Hins. apply bind_Ok in Hins as (? & _ & Hins).
  done.
Qed.

(** ** Primary keys *)

Lemma NoDup_fmap_snoc {A K} (key : A → K) (l : list A) (x : A) :
  NoDup (key <$> l) → (key x ∉ key <$> l) → NoDup (key <$> (l ++ [x])).
Proof.
  intros Hl Hx. rewrite fmap_app. apply NoDup_app. split; [done|]. split.
  - intros k Hk Hk'. apply list_elem_of_singleton in Hk'. by subst.
  - apply NoDup_singleton.
Qed.

Lemma NoDup_fmap_filter {A K} (key : A → K) (P : A → Prop)
    `{∀ x, Decision (P x)} (l : list A) :
  NoDup (key <$> l) → NoDup (key <$> filter P l).
Proof.
  intros Hl. eapply sublist_NoDup; [exact Hl|].
  apply fmap_sublist, sublist_filter.
Qed.

Lemma NoDup_fmap_same_key {A K} (key : A → K) (l : list A) (x y : A) :
  NoDup (key <$> l) → x ∈ l → y ∈ l → key x = key y → x = y.
Proof.
  induction l as [|z l IH]; intros Hl Hx Hy Hkey; [by apply elem_of_nil in Hx|].
  rewrite fmap_cons in Hl. apply NoDup_cons in Hl as [Hz Hl].
  apply elem_of_cons in Hx as [->|Hx]; apply elem_of_cons in Hy as [->|Hy].
  - done.
  - destruct Hz. rewrite Hkey. by apply list_elem_of_fmap_2.
  - destruct Hz. rewrite <- Hkey. by apply list_elem_of_fmap_2.
  - by apply IH.
Qed.

(** An [UPDATE] that compares the key of every rewritten row with the keys of
    the other rows keeps the keys distinct. *)
Lemma update_each_keeps_keys {A K} (key : A → K) (f : list A → A → outcome A) :
  (∀ others row row',
     f others row = Ok row' → row' = row ∨ key row' ∉ key <$> others) →
  ∀ l rows, NoDup (key <$> l) → update_each f [] l = Ok rows →
            NoDup (key <$> rows).
Proof.
  intros Hf l rows Hl.
  apply (update_each_invariant f (fun l => NoDup (key <$> l))); [|done].
  intros done row rest row' Hinv Hrow.
  apply Hf in Hrow as [->|Hfresh]; [done|].
  rewrite fmap_app, fmap_cons, <- Permutation_middle.
  rewrite fmap_app, fmap_cons, <- Permutation_middle in Hinv.
  apply NoDup_cons in Hinv as [_ Hinv].
  apply NoDup_cons. split; [|done]. by rewrite <- fmap_app.
Qed.

Lemma insert_attachment_request_inv user db cid fname furl ftype fsize d db' :
  Client.insert_attachment_request user db cid fname furl ftype fsize d
  = Ok db' →
  ∃ row, a_complaint_id row = cid ∧ a_id row = Client.new_id d
         ∧ Policy.users_can_add_attachments_to_own_complaints
             (Client.session_of user) db row = true
         ∧ table_insert_complaint_attachment db row = Ok db'.
Proof.
  unfold Client.insert_attachment_request. intros H.
  apply bind_Ok in H as (size & _ & H).
  unfold insert_complaint_attachment in H.
  apply bind_Ok in H as (? & Hpol & H). apply guard_Ok in Hpol.
  eexists. split; [|split; [|split; [exact Hpol|exact H]]]; done.
Qed.

Section keys.

Implicit Types db : database.

Ltac open_keys :=
  unfold keys_unique;
  intros (Hu & Hp & Hr & Hc & Ha & Hh & Hn & Ho).

Lemma keys_table_insert_user db row db' :
  table_insert_user db row = Ok db' → keys_unique db → keys_unique db'.
Proof.
  intros H. apply table_insert_user_inv in H as (? & ->). open_keys. simpl.
  repeat split; try done. by apply NoDup_fmap_snoc.
Qed.

Lemma keys_table_insert_profile db row db' :
  table_insert_profile db row = Ok db' → keys_unique db → keys_unique db'.
Proof.
  intros H. apply table_insert_profile_inv in H as (? & ? & ->). open_keys.
  simpl. repeat split; try done. by apply NoDup_fmap_snoc.
Qed.

Lemma keys_table_insert_user_role db row db' :
  table_insert_user_role db row = Ok db' → keys_unique db → keys_unique db'.
Proof.
  intros H. apply table_insert_user_role_inv in H as (? & ? & ? & ->).
  open_keys. simpl. repeat split; try done. by apply NoDup_fmap_snoc.
Qed.

Lemma keys_table_insert_complaint db row db' :
  table_insert_complaint db row = Ok db' → keys_unique db → keys_unique db'.
Proof.
  intros H. apply table_insert_complaint_inv in H as (? & ? & ? & ->).
  open_keys. simpl. repeat split; try done. by apply NoDup_fmap_snoc.
Qed.

Lemma keys_table_insert_complaint_attachment db row db' :
  table_insert_complaint_attachment db row = Ok db' →
  keys_unique db → keys_unique db'.
Proof.
  intros H. apply table_insert_complaint_attachment_inv in H as (? & ? & ->).
  open_keys. simpl. repeat split; try done. by apply NoDup_fmap_snoc.
Qed.

Lemma keys_table_insert_status_history db row db' :
  table_insert_status_history db row = Ok db' →
  keys_unique db → keys_unique db'.
Proof.
  intros H. apply table_insert_status_history_inv in H as (? & ? & ? & ->).
  open_keys. simpl. repeat split; try done. by apply NoDup_fmap_snoc.
Qed.

Lemma keys_table_insert_admin_note db row db' :
  table_insert_admin_note db row = Ok db' → keys_unique db → keys_unique db'.
Proof.
  intros H. apply table_insert_admin_note_inv in H as (? & ? & ? & ->).
  open_keys. simpl. repeat split; try done. by apply NoDup_fmap_snoc.
Qed.

Lemma keys_upload accepts s db bucket path f db' :
  Storage.upload accepts s db bucket path f = Ok db' →
  keys_unique db → keys_unique db'.
Proof.
  intros H. apply upload_inv in H as (_ & _ & _ & ? & ->). open_keys. simpl.
  repeat split; try done. by apply NoDup_fmap_snoc.
Qed.

Lemma keys_remove s db bucket path :
  keys_unique db → keys_unique (Storage.remove s db bucket path).
Proof.
  open_keys. simpl. repeat split; try done. by apply NoDup_fmap_filter.
Qed.

Lemma keys_delete_user_roles s db qual :
  keys_unique db → keys_unique (delete_user_roles s db qual).
Proof.
  open_keys. simpl. repeat split; try done. by apply NoDup_fmap_filter.
Qed.

Lemma keys_delete_auth_user db uid :
  keys_unique db → keys_unique (delete_auth_user db uid).
Proof.
  open_keys. simpl. repeat split; try (by apply NoDup_fmap_filter); [|done].
  rewrite <- list_fmap_compose.
  change (c_id ∘ unassign uid) with c_id. by apply NoDup_fmap_filter.
Qed.

Lemma keys_update_user_roles s db qual assign db' :
  update_user_roles s db qual assign = Ok db' →
  keys_unique db → keys_unique db'.
Proof.
  unfold update_user_roles. intros H. apply bind_Ok in H as (rows & Hrows & H).
  injection H as <-. open_keys. simpl. repeat split; try done.
  revert Hrows. apply update_each_keeps_keys; [|done].
  intros others row row' Hrow. unfold update_user_role_row in Hrow.
  destruct (_ && _ && qual row).
  - ok_inv Hrow. subst. by right.
  - injection Hrow as <-. by left.
Qed.

Lemma keys_update_complaints s db now qual assign db' :
  update_complaints s db now qual assign = Ok db' →
  keys_unique db → keys_unique db'.
Proof.
  unfold update_complaints. intros H. apply bind_Ok in H as (rows & Hrows & H).
  injection H as <-. open_keys. simpl. repeat split; try done.
  revert Hrows. apply update_each_keeps_keys; [|done].
  intros others row row' Hrow. unfold update_complaint_row in Hrow.
  destruct (_ && _ && qual row).
  - ok_inv Hrow. subst. by right.
  - injection Hrow as <-. by left.
Qed.

Lemma keys_update_profiles s db now qual assign db' :
  update_profiles s db now qual assign = Ok db' →
  keys_unique db → keys_unique db'.
Proof.
  unfold update_profiles. intros H. apply bind_Ok in H as (rows & Hrows & H).
  injection H as <-. open_keys. simpl. repeat split; try done.
  revert Hrows. apply update_each_keeps_keys; [|done].
  intros others row row' Hrow. unfold update_profile_row in Hrow.
  destruct (_ && _ && qual row).
  - ok_inv Hrow. subst. by right.
  - injection Hrow as <-. by left.
Qed.

Lemma keys_upload_loop accepts endpoint user c items db :
  keys_unique db →
  keys_unique (fst (Client.upload_loop accepts endpoint user c items db)).
Proof.
  revert db. induction items as [|it rest IH]; intros db Hdb; [done|].
  simpl.
  destruct (Storage.upload _ _ _ _ _ _) as [db1|e] eqn:Hup; [|done].
  apply keys_upload in Hup; [|done]. apply IH.
  destruct (Client.insert_attachment_request _ _ _ _ _ _ _ _)
    as [db2|e] eqn:Hins; [|done].
  apply insert_attachment_request_inv in Hins as (row & _ & _ & _ & Hins).
  by eapply keys_table_insert_complaint_attachment.
Qed.

Lemma keys_handleSubmit accepts endpoint user f d files db :
  keys_unique db →
  keys_unique (fst (Client.handleSubmit accepts endpoint user f d files db)).
Proof.
  intros Hdb. unfold Client.handleSubmit. destruct user as [user|]; [|done].
  destruct (Client.insert_complaint_returning _ _ _ _) as [[db1 c]|e] eqn:Hc;
    [|done].
  apply insert_complaint_returning_inv in Hc as (_ & _ & Hc).
  apply keys_table_insert_complaint in Hc; [|done].
  pose proof (keys_upload_loop accepts endpoint user c files db1 Hc) as Hloop.
  by destruct (Client.upload_loop _ _ _ _ _ _) as [db2 [e|]].
Qed.

Lemma exec_keys_unique s c db db' :
  keys_unique db → exec s c db = Ok db' → keys_unique db'.
Proof.
  intros Hdb H. destruct c; simpl in H.
  - unfold on_auth_user_created, handle_new_user in H.
    apply bind_Ok in H as (db1 & H1 & H).
    apply bind_Ok in H as (db2 & H2 & H).
    apply bind_Ok in H as (db3 & H3 & H). injection H as <-.
    eapply keys_table_insert_user_role; [exact H3|].
    eapply keys_table_insert_profile; [exact H2|].
    by eapply keys_table_insert_user.
  - injection H as <-. by apply keys_delete_auth_user.
  - unfold insert_user_role in H. apply bind_Ok in H as (? & _ & H).
    by eapply keys_table_insert_user_role.
  - by eapply keys_update_user_roles.
  - injection H as <-. by apply keys_delete_user_roles.
  - unfold insert_complaint in H. apply bind_Ok in H as (? & _ & H).
    by eapply keys_table_insert_complaint.
  - by eapply keys_update_complaints.
  - unfold insert_complaint_attachment in H. apply bind_Ok in H as (? & _ & H).
    by eapply keys_table_insert_complaint_attachment.
  - unfold insert_status_history in H. apply bind_Ok in H as (? & _ & H).
    by eapply keys_table_insert_status_history.
  - unfold insert_admin_note in H. apply bind_Ok in H as (? & _ & H).
    by eapply keys_table_insert_admin_note.
  - by eapply keys_upload.
  - injection H as <-. by apply keys_remove.
  - injection H as <-. by apply keys_handleSubmit.
  - by eapply keys_update_profiles.
Qed.

End keys.

Lemma reachable_keys_unique db : reachable db → keys_unique db.
Proof.
  induction 1 as [|s c db _ IH].
  - unfold keys_unique. simpl. repeat split; apply NoDup_nil_2.
  - unfold after. destruct (exec s c db) as [db'|e] eqn:H; [|done].
    by eapply exec_keys_unique.
Qed.

(** No statement leaves two rows with the same primary key, nor two objects
    with the same bucket and name: if the identifiers of each table are
    pairwise distinct before an insert, update, delete, cascade, upload or
    submission, they are so afterwards. This holds from the empty database on,
    and means that an identifier names at most one complaint. *)
Theorem primary_keys_stay_unique :
  (∀ s c db db', keys_unique db → exec s c db = Ok db' → keys_unique db')
  ∧ (∀ db, reachable db → keys_unique db)
  ∧ (∀ db c1 c2, keys_unique db → c1 ∈ complaints db → c2 ∈ complaints db →
       c_id c1 = c_id c2 → c1 = c2).
Proof.
  split; [apply exec_keys_unique|]. split; [apply reachable_keys_unique|].
  intros db c1 c2 (_ & _ & _ & Hc & _) H1 H2 Hid.
  by eapply (NoDup_fmap_same_key c_id).
Qed.

Lemma primary_keys_stay_unique_witness :
  keys_unique (after (Authenticated Sample.root)
                 (UpdateComplaints 70 (Sample.by_id "c1")
                    (Sample.hand_over Sample.bob))
                 Sample.campus_with_complaints)
  ∧ keys_unique (after Anon (SignUp Sample.carol "r5" 50)
                   Sample.campus_with_complaints).
Proof.
  destruct primary_keys_stay_unique as (Hstep & _ & _).
  split.
  - unfold after.
    destruct (exec (Authenticated Sample.root) _ Sample.campus_with_complaints)
      as [db'|e] eqn:H.
    + eapply Hstep; [|exact H]. compute_done.
    + compute_done.
  - unfold after.
    destruct (exec Anon _ Sample.campus_with_complaints) as [db'|e] eqn:H.
    + eapply Hstep; [|exact H]. compute_done.
    + compute_done.
Defined.

(** ** Foreign keys *)

Lemma references_user_mono db db' ref :
  (∀ x, x ∈ u_id <$> users db → x ∈ u_id <$> users db') →
  references_user db ref = true → references_user db' ref = true.
Proof.
  intros Hmono. destruct ref as [x|]; [|done]. simpl. intros H.
  apply bool_decide_eq_true in H. apply bool_decide_eq_true_2. by apply Hmono.
Qed.

(** The references stay intact when no account goes away, no referenced
    complaint identifier goes away, and every new or rewritten row has been
    checked against the new tables. *)
Lemma intact_extend db db' :
  references_intact db →
  (∀ x, x ∈ u_id <$> users db → x ∈ u_id <$> users db') →
  (∀ x, x ∈ c_id <$> complaints db →
        x ∈ c_id <$> complaints db'
        ∨ ((x ∉ a_complaint_id <$> complaint_attachments db)
           ∧ (x ∉ h_complaint_id <$> complaint_status_history db)
           ∧ (x ∉ n_complaint_id <$> admin_notes db))) →
  (∀ p, p ∈ profiles db' → p ∈ profiles db ∨ p_id p ∈ u_id <$> users db') →
  (∀ r, r ∈ user_roles db' →
        r ∈ user_roles db ∨ ur_user_id r ∈ u_id <$> users db') →
  (∀ c, c ∈ complaints db' →
        c ∈ complaints db
        ∨ (c_user_id c ∈ u_id <$> users db'
           ∧ references_user db' (assigned_to c) = true)) →
  (∀ a, a ∈ complaint_attachments db' →
        a ∈ complaint_attachments db
        ∨ a_complaint_id a ∈ c_id <$> complaints db') →
  (∀ h, h ∈ complaint_status_history db' →
        h ∈ complaint_status_history db
        ∨ (h_complaint_id h ∈ c_id <$> complaints db'
           ∧ changed_by h ∈ u_id <$> users db')) →
  (∀ n, n ∈ admin_notes db' →
        n ∈ admin_notes db
        ∨ (n_complaint_id n ∈ c_id <$> complaints db'
           ∧ admin_id n ∈ u_id <$> users db')) →
  references_intact db'.
Proof.
  intros (Ip & Ir & Ic & Ia & Ih & In) Hu Hids Hp Hr Hc Ha Hh Hn.
  assert (Hkeep : ∀ x, x ∈ c_id <$> complaints db →
            (x ∈ a_complaint_id <$> complaint_attachments db
             ∨ x ∈ h_complaint_id <$> complaint_status_history db
             ∨ x ∈ n_complaint_id <$> admin_notes db) →
            x ∈ c_id <$> complaints db').
  { intros x Hx Href. destruct (Hids x Hx) as [|(Hna & Hnh & Hnn)]; [done|].
    destruct Href as [?|[?|?]]; done. }
  unfold references_intact. repeat split.
  - intros p Hin. destruct (Hp p Hin) as [Hold|]; [|done]. by apply Hu, Ip.
  - intros r Hin. destruct (Hr r Hin) as [Hold|]; [|done]. by apply Hu, Ir.
  - destruct (Hc c H) as [Hold|[? _]]; [|done]. by apply Hu, Ic.
  - destruct (Hc c H) as [Hold|[_ ?]]; [|done].
    eapply references_user_mono; [exact Hu|]. by apply Ic.
  - intros a Hin. destruct (Ha a Hin) as [Hold|]; [|done].
    apply Hkeep; [by apply Ia|]. left. by apply list_elem_of_fmap_2.
  - destruct (Hh h H) as [Hold|[? _]]; [|done].
    apply Hkeep; [by apply Ih|]. right. left. by apply list_elem_of_fmap_2.
  - destruct (Hh h H) as [Hold|[_ ?]]; [|done]. by apply Hu, Ih.
  - destruct (Hn n H) as [Hold|[? _]]; [|done].
    apply Hkeep; [by apply In|]. right. right. by apply list_elem_of_fmap_2.
  - destruct (Hn n H) as [Hold|[_ ?]]; [|done]. by apply Hu, In.
Qed.

Lemma Forall2_elem_of_r {A B} (P : A → B → Prop) (l : list A) (k : list B)
    (y : B) :
  Forall2 P l k → y ∈ k → ∃ x, x ∈ l ∧ P x y.
Proof.
  induction 1 as [|x y' l k Hxy _ IH]; intros Hy; [by apply elem_of_nil in Hy|].
  apply elem_of_cons in Hy as [->|Hy].
  - exists x. split; [left|done].
  - destruct (IH Hy) as (x' & Hx' & HP). exists x'. split; [by right|done].
Qed.

Lemma Forall2_elem_of_l {A B} (P : A → B → Prop) (l : list A) (k : list B)
    (x : A) :
  Forall2 P l k → x ∈ l → ∃ y, y ∈ k ∧ P x y.
Proof.
  induction 1 as [|x' y l k Hxy _ IH]; intros Hx; [by apply elem_of_nil in Hx|].
  apply elem_of_cons in Hx as [->|Hx].
  - exists y. split; [left|done].
  - destruct (IH Hx) as (y' & Hy' & HP). exists y'. split; [by right|done].
Qed.

Section references.

Implicit Types db : database.

(** Obligations of [intact_extend] about a table or key set that the
    statement did not touch or only appended to. *)
Ltac untouched :=
  simpl; intros ? ?;
  first [ done
        | by left
        | by (left; rewrite fmap_app; apply elem_of_app; left)
        | by (rewrite fmap_app; apply elem_of_app; left) ].

Ltac appended H :=
  simpl; intros ? H;
  apply elem_of_app in H as [H|H]; [by left|];
  apply list_elem_of_singleton in H; subst; right.

Lemma intact_table_insert_user db row db' :
  table_insert_user db row = Ok db' →
  references_intact db → references_intact db'.
Proof.
  intros H Hdb. apply table_insert_user_inv in H as (_ & ->).
  apply (intact_extend db); [done|untouched..].
Qed.

Lemma intact_table_insert_profile db row db' :
  table_insert_profile db row = Ok db' →
  references_intact db → references_intact db'.
Proof.
  intros H Hdb. apply table_insert_profile_inv in H as (_ & Hfk & ->).
  apply (intact_extend db); [done|untouched|untouched| |untouched..].
  appended Hin. done.
Qed.

Lemma intact_table_insert_user_role db row db' :
  table_insert_user_role db row = Ok db' →
  references_intact db → references_intact db'.
Proof.
  intros H Hdb. apply table_insert_user_role_inv in H as (_ & _ & Hfk & ->).
  apply (intact_extend db); [done|untouched|untouched|untouched| |untouched..].
  appended Hin. done.
Qed.

Lemma intact_table_insert_complaint db row db' :
  table_insert_complaint db row = Ok db' →
  references_intact db → references_intact db'.
Proof.
  intros H Hdb. apply table_insert_complaint_inv in H as (_ & Hu & Ha & ->).
  apply (intact_extend db);
    [done|untouched|untouched|untouched|untouched| |untouched..].
  appended Hin. done.
Qed.

Lemma intact_table_insert_complaint_attachment db row db' :
  table_insert_complaint_attachment db row = Ok db' →
  references_intact db → references_intact db'.
Proof.
  intros H Hdb.
  apply table_insert_complaint_attachment_inv in H as (_ & Hfk & ->).
  apply (intact_extend db);
    [done|untouched|untouched|untouched|untouched|untouched| |untouched..].
  appended Hin. done.
Qed.

Lemma intact_table_insert_status_history db row db' :
  table_insert_status_history db row = Ok db' →
  references_intact db → references_intact db'.
Proof.
  intros H Hdb.
  apply table_insert_status_history_inv in H as (_ & Hc & Hu & ->).
  apply (intact_extend db);
    [done|untouched|untouched|untouched|untouched|untouched|untouched|
     |untouched].
  appended Hin. done.
Qed.

Lemma intact_table_insert_admin_note db row db' :
  table_insert_admin_note db row = Ok db' →
  references_intact db → references_intact db'.
Proof.
  intros H Hdb.
  apply table_insert_admin_note_inv in H as (_ & Hc & Hu & ->).
  apply (intact_extend db);
    [done|untouched|untouched|untouched|untouched|untouched|untouched
    |untouched|].
  appended Hin. done.
Qed.

Lemma intact_with_objects db l :
  references_intact db → references_intact (with_objects l db).
Proof. intros Hdb. apply (intact_extend db); [done|untouched..]. Qed.

Lemma intact_delete_user_roles s db qual :
  references_intact db → references_intact (delete_user_roles s db qual).
Proof.
  intros Hdb.
  apply (intact_extend db); [done|untouched|untouched|untouched| |untouched..].
  simpl. intros r Hr. left. by apply list_elem_of_filter in Hr as [_ Hr].
Qed.

Lemma intact_update_user_roles s db qual assign db' :
  update_user_roles s db qual assign = Ok db' →
  references_intact db → references_intact db'.
Proof.
  unfold update_user_roles. intros H Hdb.
  apply bind_Ok in H as (rows & Hrows & H). injection H as <-.
  apply update_each_rows in Hrows as (news & -> & Hnews).
  apply (intact_extend db); [done|untouched|untouched|untouched| |untouched..].
  simpl. intros r Hr.
  destruct (Forall2_elem_of_r _ _ _ _ Hnews Hr) as (OLD & Hold & others & Hrow).
  unfold update_user_role_row in Hrow. destruct (_ && _ && qual OLD).
  - ok_inv Hrow. subst. by right.
  - injection Hrow as <-. by left.
Qed.

Lemma intact_update_profiles s db now qual assign db' :
  update_profiles s db now qual assign = Ok db' →
  references_intact db → references_intact db'.
Proof.
  unfold update_profiles. intros H Hdb.
  apply bind_Ok in H as (rows & Hrows & H). injection H as <-.
  apply update_each_rows in Hrows as (news & -> & Hnews).
  apply (intact_extend db); [done|untouched|untouched| |untouched..].
  simpl. intros p Hp.
  destruct (Forall2_elem_of_r _ _ _ _ Hnews Hp) as (OLD & Hold & others & Hrow).
  unfold update_profile_row in Hrow. destruct (_ && _ && qual OLD).
  - ok_inv Hrow. subst. by right.
  - injection Hrow as <-. by left.
Qed.

Lemma intact_update_complaints s db now qual assign db' :
  update_complaints s db now qual assign = Ok db' →
  references_intact db → references_intact db'.
Proof.
  unfold update_complaints. intros H Hdb.
  apply bind_Ok in H as (rows & Hrows & H). injection H as <-.
  apply update_each_rows in Hrows as (news & -> & Hnews).
  apply (intact_extend db);
    [done|untouched| |untouched|untouched| |untouched..].
  - simpl. intros x Hx.
    apply list_elem_of_fmap in Hx as (OLD & -> & Hold).
    destruct (Forall2_elem_of_l _ _ _ _ Hnews Hold) as (NEW & Hnew & others & Hrow).
    unfold update_complaint_row in Hrow. destruct (_ && _ && qual OLD).
    + apply bind_Ok in Hrow as (? & _ & Hrow).
      apply bind_Ok in Hrow as (? & _ & Hrow).
      apply bind_Ok in Hrow as (? & _ & Hrow).
      apply bind_Ok in Hrow as (? & _ & Hrow).
      apply bind_Ok in Hrow as (? & Hchild & Hrow).
      apply guard_Ok, bool_decide_eq_true in Hchild. injection Hrow as Hrow.
      destruct Hchild as [Hsame|Hfree]; [|by right].
      left. rewrite <- Hsame, Hrow. by apply list_elem_of_fmap_2.
    + injection Hrow as <-. left. by apply list_elem_of_fmap_2.
  - simpl. intros c Hc.
    destruct (Forall2_elem_of_r _ _ _ _ Hnews Hc) as (OLD & Hold & others & Hrow).
    unfold update_complaint_row in Hrow. destruct (_ && _ && qual OLD).
    + ok_inv Hrow. subst. by right.
    + injection Hrow as <-. by left.
Qed.

Lemma intact_delete_auth_user db uid :
  references_intact db → references_intact (delete_auth_user db uid).
Proof.
  intros (Ip & Ir & Ic & Ia & Ih & In).
  assert (Hlive : ∀ x, x ∈ u_id <$> users db → x ≠ uid →
                       x ∈ u_id <$> filter (fun u => u_id u ≠ uid) (users db)).
  { intros x Hx Hne. apply list_elem_of_fmap in Hx as (u & -> & Hu).
    apply list_elem_of_fmap_2, list_elem_of_filter. done. }
  assert (Hids : c_id <$> (unassign uid
                             <$> filter (fun c => c_user_id c ≠ uid)
                                   (complaints db))
                 = c_id <$> filter (fun c => c_user_id c ≠ uid) (complaints db)).
  { by rewrite <- list_fmap_compose. }
  unfold references_intact. simpl. rewrite Hids. repeat split.
  - intros p Hp. apply list_elem_of_filter in Hp as [Hne Hp]. apply Hlive; [by apply Ip|done].
  - intros r Hr. apply list_elem_of_filter in Hr as [Hne Hr]. apply Hlive; [by apply Ir|done].
  - apply list_elem_of_fmap in H as (c' & -> & Hc').
    apply list_elem_of_filter in Hc' as [Hne Hc']. simpl.
    apply Hlive; [by apply Ic|done].
  - apply list_elem_of_fmap in H as (c' & -> & Hc').
    apply list_elem_of_filter in Hc' as [Hne Hc'].
    destruct (Ic c' Hc') as [_ Href]. unfold unassign. simpl.
    case_bool_decide as Hassigned; [done|].
    destruct (assigned_to c') as [x|]; [|done]. simpl in *.
    apply bool_decide_eq_true in Href. apply bool_decide_eq_true_2.
    apply Hlive; [done|]. congruence.
  - intros a Ha. by apply list_elem_of_filter in Ha as [Hin _].
  - by apply list_elem_of_filter in H as [[Hin _] _].
  - apply list_elem_of_filter in H as [[_ Hne] Hh]. apply Hlive; [by apply Ih|done].
  - by apply list_elem_of_filter in H as [[Hin _] _].
  - apply list_elem_of_filter in H as [[_ Hne] Hn]. apply Hlive; [by apply In|done].
Qed.

Lemma intact_upload_loop accepts endpoint user c items db :
  references_intact db →
  references_intact
    (fst (Client.upload_loop accepts endpoint user c items db)).
Proof.
  revert db. induction items as [|it rest IH]; intros db Hdb; [done|].
  simpl.
  destruct (Storage.upload _ _ _ _ _ _) as [db1|e] eqn:Hup; [|done].
  apply upload_inv in Hup as (_ & _ & _ & _ & ->). apply IH.
  destruct (Client.insert_attachment_request _ _ _ _ _ _ _ _)
    as [db2|e] eqn:Hins; [|by apply intact_with_objects].
  apply insert_attachment_request_inv in Hins as (row & _ & _ & _ & Hins).
  eapply intact_table_insert_complaint_attachment; [exact Hins|].
  by apply intact_with_objects.
Qed.

Lemma intact_handleSubmit accepts endpoint user f d files db :
  references_intact db →
  references_intact
    (fst (Client.handleSubmit accepts endpoint user f d files db)).
Proof.
  intros Hdb. unfold Client.handleSubmit. destruct user as [user|]; [|done].
  destruct (Client.insert_complaint_returning _ _ _ _) as [[db1 c]|e] eqn:Hc;
    [|done].
  apply insert_complaint_returning_inv in Hc as (_ & _ & Hc).
  apply intact_table_insert_complaint in Hc; [|done].
  pose proof (intact_upload_loop accepts endpoint user c files db1 Hc) as Hloop.
  by destruct (Client.upload_loop _ _ _ _ _ _) as [db2 [e|]].
Qed.

Lemma exec_references_intact s c db db' :
  references_intact db → exec s c db = Ok db' → references_intact db'.
Proof.
  intros Hdb H. destruct c; simpl in H.
  - unfold on_auth_user_created, handle_new_user in H.
    apply bind_Ok in H as (db1 & H1 & H).
    apply bind_Ok in H as (db2 & H2 & H).
    apply bind_Ok in H as (db3 & H3 & H). injection H as <-.
    eapply intact_table_insert_user_role; [exact H3|].
    eapply intact_table_insert_profile; [exact H2|].
    by eapply intact_table_insert_user.
  - injection H as <-. by apply intact_delete_auth_user.
  - unfold insert_user_role in H. apply bind_Ok in H as (? & _ & H).
    by eapply intact_table_insert_user_role.
  - by eapply intact_update_user_roles.
  - injection H as <-. by apply intact_delete_user_roles.
  - unfold insert_complaint in H. apply bind_Ok in H as (? & _ & H).
    by eapply intact_table_insert_complaint.
  - by eapply intact_update_complaints.
  - unfold insert_complaint_attachment in H. apply bind_Ok in H as (? & _ & H).
    by eapply intact_table_insert_complaint_attachment.
  - unfold insert_status_history in H. apply bind_Ok in H as (? & _ & H).
    by eapply intact_table_insert_status_history.
  - unfold insert_admin_note in H. apply bind_Ok in H as (? & _ & H).
    by eapply intact_table_insert_admin_note.
  - apply upload_inv in H as (_ & _ & _ & _ & ->). by apply intact_with_objects.
  - injection H as <-. by apply intact_with_objects.
  - injection H as <-. by apply intact_handleSubmit.
  - by eapply intact_update_profiles.
Qed.

End references.

Lemma reachable_references_intact db : reachable db → references_intact db.
Proof.
  induction 1 as [|s c db _ IH].
  - unfold references_intact. simpl. repeat split; intros;
      by match goal with Hin : _ ∈ [] |- _ => apply elem_of_nil in Hin end.
  - unfold after. destruct (exec s c db) as [db'|e] eqn:H; [|done].
    by eapply exec_references_intact.
Qed.

(** Proves [references_intact] of a database that is written out. *)
Ltac check_intact :=
  unfold references_intact; simpl; repeat split; intros;
  repeat match goal with
    | Hin : _ ∈ _ :: _ |- _ => apply elem_of_cons in Hin as [->|Hin]
    | Hin : _ ∈ [] |- _ => by apply elem_of_nil in Hin
    end;
  compute_done.

(** No statement leaves a dangling reference: if every profile, role
    assignment and complaint names a stored account, and every attachment,
    history entry and admin note names a stored complaint (and account), then
    the same holds after any statement, cascading account deletion and
    changes of a complaint's identifier included. So an attachment always
    belongs to a stored complaint of a stored account. *)
Theorem references_stay_intact :
  (∀ s c db db',
     references_intact db → exec s c db = Ok db' → references_intact db')
  ∧ (∀ db, reachable db → references_intact db)
  ∧ (∀ db a, references_intact db → a ∈ complaint_attachments db →
       ∃ c, c ∈ complaints db ∧ c_id c = a_complaint_id a
            ∧ c_user_id c ∈ u_id <$> users db).
Proof.
  split; [apply exec_references_intact|].
  split; [apply reachable_references_intact|].
  intros db a (_ & _ & Ic & Ia & _) Ha.
  apply Ia, list_elem_of_fmap in Ha as (c & Hid & Hc).
  exists c. split; [done|]. split; [done|]. by apply Ic.
Qed.

Lemma references_stay_intact_witness :
  references_intact (after Anon (DeleteAccount Sample.alice)
                       Example.campus_with_history)
  ∧ references_intact
      (after (Authenticated Sample.root)
         (UpdateComplaints 70 (Sample.by_id "c2") (Example.rename "c7"))
         Example.campus_with_history).
Proof.
  destruct references_stay_intact as (Hstep & _ & _).
  assert (references_intact Example.campus_with_history) as Hdb
    by check_intact.
  split.
  - unfold after.
    destruct (exec Anon _ Example.campus_with_history) as [db'|e] eqn:H;
      [|done].
    by eapply Hstep.
  - unfold after.
    destruct (exec (Authenticated Sample.root) _ Example.campus_with_history)
      as [db'|e] eqn:H; [|done].
    by eapply Hstep.
Defined.

(** ** Deleting an account *)


(** ** New accounts *)

Lemma has_role_snoc db row uid r :
  has_role (with_user_roles (user_roles db ++ [row]) db) (Some uid) r
  = has_role db (Some uid) r
    || (bool_decide (uid = ur_user_id row) && bool_decide (ur_role row = r)).
Proof.
  unfold has_role. simpl. rewrite existsb_app. simpl. by rewrite orb_false_r.
Qed.

(** In a database whose references are intact, an account that has just been
    created holds the student role and does not hold the admin role, and the
    roles of every other account are as before. *)
Theorem new_account_is_a_student_only (db db' : database) (NEW : auth_user)
    (rid : uuid) (now : timestamptz) :
  references_intact db →
  on_auth_user_created db NEW rid now = Ok db' →
  has_role db' (Some (u_id NEW)) student = true
  ∧ has_role db' (Some (u_id NEW)) admin = false
  ∧ (∀ uid r, uid ≠ u_id NEW →
              has_role db' (Some uid) r = has_role db (Some uid) r).
Proof.
  intros (_ & Ir & _) H.
  apply on_auth_user_created_inv in H as (Hnew & _ & _ & _ & ->).
  assert (Hroles : ∀ l u r, has_role (with_user_roles l u) (Some (u_id NEW)) r
                            = existsb (fun row => sql_eq (Some (u_id NEW))
                                                    (ur_user_id row)
                                                  && bool_decide (ur_role row = r)) l)
    by done.
  split; [|split].
  - rewrite Hroles, existsb_app. simpl.
    rewrite !bool_decide_eq_true_2 by done. by rewrite orb_true_r.
  - rewrite Hroles, existsb_app. simpl. rewrite andb_false_r, orb_false_r.
    destruct (existsb _ (user_roles db)) eqn:Hold; [|done].
    apply existsb_exists in Hold as (row & Hin & Hrow).
    apply andb_true_iff in Hrow as [Hu _]. simpl in Hu.
    apply bool_decide_eq_true in Hu. apply list_elem_of_In in Hin.
    destruct Hnew. rewrite Hu. by apply Ir.
  - intros uid r Hne. unfold has_role. simpl. rewrite existsb_app. simpl.
    rewrite (bool_decide_eq_false_2 (uid = u_id NEW)) by done.
    by rewrite orb_false_r.
Qed.

Lemma new_account_is_a_student_only_witness :
  ∃ db', on_auth_user_created Example.campus_with_history Sample.carol "r5" 50
         = Ok db'
         ∧ has_role db' (Some "ca401") student = true
         ∧ has_role db' (Some "ca401") admin = false
         ∧ has_role db' (Some Sample.root) admin = true.
Proof.
  destruct (on_auth_user_created Example.campus_with_history Sample.carol
              "r5" 50) as [db'|e] eqn:Hrun;
    [|vm_compute in Hrun; discriminate].
  exists db'. split; [done|].
  destruct (new_account_is_a_student_only Example.campus_with_history db'
              Sample.carol "r5" 50) as (Hstudent & Hadmin & Hothers);
    [check_intact|exact Hrun|].
  split; [exact Hstudent|]. split; [exact Hadmin|].
  rewrite Hothers by discriminate. reflexivity.
Defined.

(** ** What a submission writes *)

(** A submission either fails at the complaint insert, in which case the
    dialog reports that error and nothing at all is written or uploaded, or
    it adds exactly one complaint: owned by the signed-in account, with the
    drawn identifier, status [new], no assignee and no upvotes, whatever the
    form holds. That complaint stays stored also when an upload fails
    afterwards and the dialog reports an error. Accounts, profiles, roles,
    history and notes are never written. *)
Theorem submission_adds_one_complaint_or_nothing
    (accepts : Storage.File.t → bool) (endpoint : string) (user : Client.User)
    (f : Client.form) (d : Client.drawn) (files : list Client.upload_item)
    (db : database) :
  let run := Client.handleSubmit accepts endpoint (Some user) f d files db in
  (∀ e, Client.insert_complaint_returning user f d db = Err e →
        run = (db, Client.Error e))
  ∧ (∀ db1 c, Client.insert_complaint_returning user f d db = Ok (db1, c) →
       complaints (fst run) = complaints db ++ [c]
       ∧ c_id c = Client.new_id d ∧ c_user_id c = Client.id user
       ∧ status c = new ∧ assigned_to c = None ∧ upvotes c = 0
       ∧ title c = Client.form_title f
       ∧ is_anonymous c = Client.isAnonymous f)
  ∧ (snd run = Client.Success →
       ∃ db1 c, Client.insert_complaint_returning user f d db = Ok (db1, c))
  ∧ users (fst run) = users db ∧ profiles (fst run) = profiles db
  ∧ user_roles (fst run) = user_roles db
  ∧ complaint_status_history (fst run) = complaint_status_history db
  ∧ admin_notes (fst run) = admin_notes db.
Proof.
  simpl. unfold Client.handleSubmit.
  destruct (Client.insert_complaint_returning user f d db)
    as [[db1 c]|e] eqn:Hc.
  - pose proof (upload_loop_frame accepts endpoint user c files db1)
      as (Hu & Hp & Hr & Hcs & Hh & Hn).
    apply insert_complaint_returning_inv in Hc as (_ & Hrow & Hins).
    apply table_insert_complaint_inv in Hins as (_ & _ & _ & ->).
    destruct (Client.upload_loop accepts endpoint user c files _)
      as [db2 r]. simpl in *.
    split; [discriminate|]. split.
    + intros ? ? [= <- <-].
      split; [by destruct r|]. rewrite Hrow. done.
    + split; [by eauto|]. by destruct r.
  - simpl. split; [by intros ? [= <-]|]. split; [discriminate|].
    split; [discriminate|done].
Qed.

Lemma submission_adds_one_complaint_or_nothing_witness :
  Client.handleSubmit Sample.no_executables Sample.endpoint
    (Some Example.alice_user) Example.odd_form Sample.complaint_draw
    [Sample.item Sample.photo 1700000000000 "a1"] Sample.campus
  = (Sample.campus, Client.Error invalid_text_representation)
  ∧ c_id <$> complaints
      (fst (Client.handleSubmit Sample.no_executables Sample.endpoint
              (Some Example.alice_user) Sample.the_form Sample.complaint_draw
              [Sample.item Sample.installer 1700000000000 "a1"]
              Sample.campus)) = ["c9"].
Proof.
  split.
  - apply (submission_adds_one_complaint_or_nothing Sample.no_executables
             Sample.endpoint Example.alice_user Example.odd_form
             Sample.complaint_draw
             [Sample.item Sample.photo 1700000000000 "a1"] Sample.campus).
    reflexivity.
  - destruct (submission_adds_one_complaint_or_nothing Sample.no_executables
                Sample.endpoint Example.alice_user Sample.the_form
                Sample.complaint_draw
                [Sample.item Sample.installer 1700000000000 "a1"]
                Sample.campus) as (_ & Hrow & _).
    destruct (Hrow (with_complaints [Sample.broken_ac "c9" Sample.alice 30]
                      Sample.campus)
                (Sample.broken_ac "c9" Sample.alice 30) eq_refl) as (-> & _).
    reflexivity.
Defined.

(** A submission without files goes through whenever the signed-in account is
    stored, the drawn identifier is not in use and the priority is one of
    those the dialog offers: a success is reported and the complaint is the
    only thing written. *)
Theorem submission_without_files_succeeds (accepts : Storage.File.t → bool)
    (endpoint : string) (user : Client.User) (f : Client.form)
    (d : Client.drawn) (db : database) :
  (Client.id user ∈ u_id <$> users db) →
  (Client.new_id d ∉ c_id <$> complaints db) →
  (Client.form_priority f ∈ fst <$> Dialog.PRIORITIES) →
  ∃ c, Client.handleSubmit accepts endpoint (Some user) f d [] db
       = (with_complaints (complaints db ++ [c]) db, Client.Success)
       ∧ Client.priority_of_text (Client.form_priority f) = Ok (priority c)
       ∧ priority c ≠ urgent.
Proof.
  intros Huser Hfresh Hprio.
  assert (∃ p, Client.priority_of_text (Client.form_priority f) = Ok p
               ∧ p ≠ urgent) as (p & Hp & Hnot).
  { simpl in Hprio. repeat (apply elem_of_cons in Hprio as [->|Hprio]);
      [by exists low|by exists medium|by exists high|
       by apply elem_of_nil in Hprio]. }
  eexists. unfold Client.handleSubmit, Client.insert_complaint_returning.
  rewrite Hp. simpl. unfold insert_complaint.
  unfold Policy.users_can_create_complaints. simpl.
  rewrite bool_decide_eq_true_2 by done. simpl.
  unfold table_insert_complaint. simpl.
  rewrite (bool_decide_eq_true_2 _ Hfresh). simpl.
  rewrite (bool_decide_eq_true_2 _ Huser). simpl.
  split; [reflexivity|]. done.
Qed.

Lemma submission_without_files_succeeds_witness :
  ∃ c, Client.handleSubmit Sample.no_executables Sample.endpoint
         (Some Example.bob_user) Sample.the_form Sample.complaint_draw []
         Sample.campus_with_complaints
       = (with_complaints
            (complaints Sample.campus_with_complaints ++ [c])
            Sample.campus_with_complaints, Client.Success)
       ∧ priority c = high.
Proof.
  destruct (submission_without_files_succeeds Sample.no_executables
              Sample.endpoint Example.bob_user Sample.the_form
              Sample.complaint_draw Sample.campus_with_complaints)
    as (c & Hrun & Hp & _); [compute_done..|].
  exists c. split; [exact Hrun|]. vm_compute in Hp. by injection Hp.
Defined.

(** ** Reading back what was submitted *)

Lemma queryFn_elem user isAdmin db c :
  c ∈ Client.queryFn (Some user) isAdmin db
  ↔ c ∈ complaints db ∧ (isAdmin = false → c_user_id c = Client.id user).
Proof.
  simpl. unfold Client.run_query, Client.session_of.
  rewrite select_complaints_authenticated, merge_sort_Permutation.
  rewrite list_elem_of_filter. unfold Client.matches.
  destruct isAdmin; simpl.
  - split; [intros [_ ?]|intros [? _]]; done.
  - rewrite bool_decide_eq_true. split; intros [? ?]; auto.
Qed.

Lemma queryFn_sorted user isAdmin db :
  StronglySorted Client.newer_first (Client.queryFn user isAdmin db).
Proof.
  destruct user as [user|]; [|constructor]. simpl.
  apply StronglySorted_merge_sort; apply _.
Qed.

(** After a submission the dashboard shows the new complaint to the account
    that submitted it, admin or not, also when an upload failed and an error
    was reported; and it shows it first when it was created later than every
    complaint stored before. *)
Theorem dashboard_shows_a_submitted_complaint
    (accepts : Storage.File.t → bool) (endpoint : string) (user : Client.User)
    (f : Client.form) (d : Client.drawn) (files : list Client.upload_item)
    (db db1 : database) (c : complaint) (isAdmin : bool) :
  Client.insert_complaint_returning user f d db = Ok (db1, c) →
  let db' := fst (Client.handleSubmit accepts endpoint (Some user) f d files
                    db) in
  c ∈ Client.queryFn (Some user) isAdmin db'
  ∧ ((∀ c', c' ∈ complaints db → c_created_at c' < Client.db_now d) →
     head (Client.queryFn (Some user) isAdmin db') = Some c).
Proof.
  intros Hc db'.
  assert (Hall : complaints db' = complaints db ++ [c]).
  { unfold db', Client.handleSubmit. rewrite Hc.
    pose proof (upload_loop_frame accepts endpoint user c files db1)
      as (_ & _ & _ & Hcs & _).
    apply insert_complaint_returning_inv in Hc as (_ & _ & Hins).
    apply table_insert_complaint_inv in Hins as (_ & _ & _ & ->).
    destruct (Client.upload_loop accepts endpoint user c files _)
      as [db2 [e|]]; done. }
  assert (Hown : c_user_id c = Client.id user ∧ c_created_at c = Client.db_now d).
  { apply insert_complaint_returning_inv in Hc as (_ & -> & _). done. }
  destruct Hown as [Hown Hat].
  assert (Hin : c ∈ Client.queryFn (Some user) isAdmin db').
  { apply queryFn_elem. rewrite Hall. split; [|done].
    apply elem_of_app. right. left. }
  split; [done|]. intros Hnewest.
  pose proof (queryFn_sorted (Some user) isAdmin db') as Hsorted.
  destruct (Client.queryFn (Some user) isAdmin db') as [|first rows] eqn:Hq;
    [by apply elem_of_nil in Hin|].
  simpl. f_equal. apply elem_of_cons in Hin as [->|Hin]; [done|].
  apply StronglySorted_inv in Hsorted as [_ Hfirst].
  rewrite Forall_forall in Hfirst. specialize (Hfirst c Hin).
  unfold Client.newer_first in Hfirst.
  assert (first ∈ Client.queryFn (Some user) isAdmin db') as Hfirst_in
    by (rewrite Hq; left).
  apply queryFn_elem in Hfirst_in as [Hfirst_in _]. rewrite Hall in Hfirst_in.
  apply elem_of_app in Hfirst_in as [Hold|Hnew].
  - specialize (Hnewest first Hold). lia.
  - by apply list_elem_of_singleton in Hnew.
Qed.

Lemma dashboard_shows_a_submitted_complaint_witness :
  head (Client.queryFn (Some Example.bob_user) false
          (fst (Client.handleSubmit Sample.no_executables Sample.endpoint
                  (Some Example.bob_user) Sample.the_form
                  Sample.complaint_draw
                  [Sample.item Sample.installer 1700000000000 "a1"]
                  Sample.campus_with_complaints)))
  = Some (Sample.broken_ac "c9" Sample.bob 30).
Proof.
  apply (dashboard_shows_a_submitted_complaint Sample.no_executables
           Sample.endpoint Example.bob_user Sample.the_form
           Sample.complaint_draw
           [Sample.item Sample.installer 1700000000000 "a1"]
           Sample.campus_with_complaints
           (with_complaints
              (complaints Sample.campus_with_complaints
               ++ [Sample.broken_ac "c9" Sample.bob 30])
              Sample.campus_with_complaints)
           (Sample.broken_ac "c9" Sample.bob 30) false).
  - reflexivity.
  - intros c' Hin. simpl in Hin.
    repeat (apply elem_of_cons in Hin as [->|Hin]); [done|done|].
    by apply elem_of_nil in Hin.
Defined.

(** ** Who may add an attachment row *)

Lemma attachment_policy_owner s db row :
  Policy.users_can_add_attachments_to_own_complaints s db row = true
  ↔ ∃ uid c, s = Authenticated uid ∧ c ∈ complaints db
             ∧ c_id c = a_complaint_id row ∧ c_user_id c = uid.
Proof.
  unfold Policy.users_can_add_attachments_to_own_complaints. split.
  - intros H. apply andb_true_iff in H as [Hs H].
    destruct s as [|uid]; [done|].
    apply existsb_exists in H as (c & Hin & Hc).
    apply andb_true_iff in Hc as [Hid Hown].
    apply bool_decide_eq_true in Hid. apply sql_eq_true in Hown.
    exists uid, c. rewrite list_elem_of_In. by injection Hown as ->.
  - intros (uid & c & -> & Hin & Hid & Hown). simpl.
    apply existsb_exists. exists c. rewrite <- list_elem_of_In.
    split; [done|]. by rewrite !bool_decide_eq_true_2.
Qed.

(** An attachment row can be inserted only by the signed-in account that owns
    the complaint the row names, and only for a stored complaint: every other
    session is refused by the policy, an admin who is not the owner included.
    For the owner the statement is the plain table insert. *)
Theorem attachments_are_added_by_the_complaint_owner (s : session)
    (db : database) (row : complaint_attachment) :
  (∀ db', insert_complaint_attachment s db row = Ok db' →
     ∃ uid c, s = Authenticated uid ∧ c ∈ complaints db
              ∧ c_id c = a_complaint_id row ∧ c_user_id c = uid)
  ∧ ((∀ c, c ∈ complaints db → c_id c = a_complaint_id row →
           auth_uid s ≠ Some (c_user_id c)) →
     insert_complaint_attachment s db row = Err insufficient_privilege)
  ∧ (∀ uid c, s = Authenticated uid → c ∈ complaints db →
       c_id c = a_complaint_id row → c_user_id c = uid →
       insert_complaint_attachment s db row
       = table_insert_complaint_attachment db row).
Proof.
  unfold insert_complaint_attachment. split; [|split].
  - intros db' H. apply bind_Ok in H as (? & Hpol & _).
    by apply guard_Ok, attachment_policy_owner in Hpol.
  - intros Hnone.
    destruct (Policy.users_can_add_attachments_to_own_complaints s db row)
      eqn:Hpol; [|done].
    apply attachment_policy_owner in Hpol as (uid & c & -> & Hin & Hid & Hown).
    destruct (Hnone c Hin Hid). simpl. by rewrite Hown.
  - intros uid c Hs Hin Hid Hown.
    assert (Policy.users_can_add_attachments_to_own_complaints s db row = true)
      as -> by (apply attachment_policy_owner; eauto 10).
    done.
Qed.

Lemma attachments_are_added_by_the_complaint_owner_witness :
  insert_complaint_attachment (Authenticated Sample.root)
    Sample.campus_with_complaints
    (Client.row_of Sample.endpoint (Sample.broken_ac "c1" Sample.alice 10)
       (Sample.item Sample.photo 1700000000000 "a1"))
  = Err insufficient_privilege
  ∧ insert_complaint_attachment (Authenticated Sample.alice)
      Sample.campus_with_complaints
      (Client.row_of Sample.endpoint (Sample.broken_ac "c1" Sample.alice 10)
         (Sample.item Sample.photo 1700000000000 "a1"))
    = table_insert_complaint_attachment Sample.campus_with_complaints
        (Client.row_of Sample.endpoint (Sample.broken_ac "c1" Sample.alice 10)
           (Sample.item Sample.photo 1700000000000 "a1")).
Proof.
  split.
  - apply (attachments_are_added_by_the_complaint_owner
             (Authenticated Sample.root) Sample.campus_with_complaints).
    intros c Hin Hid. simpl in Hin.
    repeat (apply elem_of_cons in Hin as [->|Hin]);
      [discriminate|discriminate|by apply elem_of_nil in Hin].
  - apply (attachments_are_added_by_the_complaint_owner
             (Authenticated Sample.alice) Sample.campus_with_complaints _)
      with (uid := Sample.alice) (c := Sample.broken_ac "c1" Sample.alice 10);
      [reflexivity|simpl; left|reflexivity|reflexivity].
Defined.

(** ** Objects outside any folder *)

(** An object whose name has no folder part can be deleted by nobody: the
    delete policy compares the caller with the first folder of the name, and
    there is none. *)
Theorem objects_without_folder_cannot_be_deleted (s : session)
    (db : database) (bucket : string) (o : storage_object) :
  occurs "/" (name o) = false →
  Storage.foldername (name o) = []
  ∧ Storage.users_can_delete_own_attachments s o = false
  ∧ (o ∈ objects db → o ∈ objects (Storage.remove s db bucket (name o))).
Proof.
  intros Hflat.
  assert (Hfolder : Storage.foldername (name o) = []).
  { unfold Storage.foldername. by rewrite split_no_separator. }
  assert (Hdenied : Storage.users_can_delete_own_attachments s o = false).
  { unfold Storage.users_can_delete_own_attachments. rewrite Hfolder. simpl.
    rewrite (bool_decide_eq_false_2 (is_Some _ ∧ _)).
    - by rewrite !andb_false_r.
    - intros [[uid Hsome] Hnone]. congruence. }
  split; [done|]. split; [done|]. intros Hin. simpl.
  apply list_elem_of_filter. split; [|done]. intros (_ & _ & _ & Hdel).
  by rewrite Hdenied in Hdel.
Qed.

Lemma objects_without_folder_cannot_be_deleted_witness :
  Storage.users_can_delete_own_attachments (Authenticated Sample.alice)
    {| bucket_id := "complaint-attachments"; name := "a11ce";
       owner := Some Sample.alice |} = false.
Proof.
  apply (objects_without_folder_cannot_be_deleted (Authenticated Sample.alice)
           Sample.campus "complaint-attachments"
           {| bucket_id := "complaint-attachments"; name := "a11ce";
              owner := Some Sample.alice |}).
  reflexivity.
Defined.

(** ** What every signed-in account can read *)

(** The select policies on [complaints] and [user_roles] show every row to
    every signed-in account: a complaint flagged anonymous is read by any
    account together with its owner column, and the restriction of a
    non-admin's dashboard to the account's own complaints is made by the
    client's filter alone. *)
Theorem every_account_reads_every_complaint (db : database) (uid : uuid) :
  select_complaints (Authenticated uid) db = complaints db
  ∧ select_user_roles (Authenticated uid) db = user_roles db
  ∧ (∀ c, c ∈ complaints db → is_anonymous c = true → c_user_id c ≠ uid →
          c ∈ select_complaints (Authenticated uid) db
          ∧ c ∉ Client.queryFn (Some {| Client.id := uid |}) false db).
Proof.
  split; [apply select_complaints_authenticated|]. split.
  - unfold select_user_roles. by apply filter_all.
  - intros c Hin _ Hother. rewrite select_complaints_authenticated.
    split; [done|]. rewrite queryFn_elem. intros [_ Hown]. by apply Hother, Hown.
Qed.

Lemma every_account_reads_every_complaint_witness :
  (Example.whisper
   ∈ select_complaints (Authenticated Sample.bob)
       (with_complaints [Example.whisper] Sample.campus))
  ∧ (Example.whisper
     ∉ Client.queryFn (Some Example.bob_user) false
         (with_complaints [Example.whisper] Sample.campus)).
Proof.
  destruct (every_account_reads_every_complaint
              (with_complaints [Example.whisper] Sample.campus) Sample.bob)
    as (_ & _ & Hanon).
  apply (Hanon Example.whisper); [simpl; left|reflexivity|discriminate].
Defined.

(** ** A submission in which nothing goes wrong *)

Section all_ok.

Import Storage Client.

Context (accepts : File.t → bool) (endpoint : string) (user : User)
        (c : complaint).


End all_ok.



(** ** Granting and revoking roles *)

Lemma has_role_ext db db' uid r :
  (∀ row, ur_user_id row = uid → ur_role row = r →
          row ∈ user_roles db ↔ row ∈ user_roles db') →
  has_role db (Some uid) r = has_role db' (Some uid) r.
Proof.
  intros Hrows. apply Bool.eq_iff_eq_true. rewrite !has_role_row.
  split; intros (row & Hin & Hu & Hr); exists row;
    (split; [by apply (Hrows row Hu Hr)|done]).
Qed.

(** What an admin's statements on [user_roles] do to [has_role]: after a role
    row has been inserted, the account holds the role; after the rows of a
    pair have been deleted, it does not; and either statement leaves every
    other pair of account and role as it was. The insert goes through when
    the row's keys are in order. *)
Theorem admin_grants_and_revokes_roles (s : session) (db : database) :
  has_role db (auth_uid s) admin = true →
  (∀ row db', insert_user_role s db row = Ok db' →
     has_role db' (Some (ur_user_id row)) (ur_role row) = true
     ∧ ∀ uid r, (uid, r) ≠ role_key row →
                has_role db' (Some uid) r = has_role db (Some uid) r)
  ∧ (∀ uid r,
       let db' := delete_user_roles s db
                    (fun row => bool_decide (role_key row = (uid, r))) in
       has_role db' (Some uid) r = false
       ∧ ∀ uid' r', (uid', r') ≠ (uid, r) →
                    has_role db' (Some uid') r' = has_role db (Some uid') r')
  ∧ (∀ row, (ur_id row ∉ ur_id <$> user_roles db) →
            (role_key row ∉ role_key <$> user_roles db) →
            (ur_user_id row ∈ u_id <$> users db) →
            insert_user_role s db row
            = Ok (with_user_roles (user_roles db ++ [row]) db)).
Proof.
  intros Hadmin. pose proof (has_role_authenticated _ _ _ Hadmin) as Hs.
  assert (Hpol : ∀ row, Policy.only_admins_can_manage_roles s db row = true).
  { intros row. unfold Policy.only_admins_can_manage_roles.
    by rewrite Hs, Hadmin. }
  split; [|split].
  - intros row db' H. unfold insert_user_role in H.
    apply bind_Ok in H as (? & _ & H).
    apply table_insert_user_role_inv in H as (_ & _ & _ & ->). split.
    + apply has_role_row. exists row. split; [|done]. simpl.
      apply elem_of_app. right. left.
    + intros uid r Hother. symmetry. apply has_role_ext. intros row' Hu Hr.
      simpl. rewrite elem_of_app, list_elem_of_singleton. split; [by left|].
      intros [?| ->]; [done|]. destruct Hother. unfold role_key. by subst.
  - intros uid r db'. split.
    + destruct (has_role db' (Some uid) r) eqn:Hheld; [|done].
      apply has_role_row in Hheld as (row & Hin & Hu & Hr).
      unfold db' in Hin. simpl in Hin.
      apply list_elem_of_filter in Hin as [Hkept _]. destruct Hkept.
      rewrite Hpol. unfold Policy.anyone_can_view_user_roles. rewrite Hs.
      split; [done|]. split; [done|]. apply bool_decide_eq_true_2.
      unfold role_key. by subst.
    + intros uid' r' Hother. symmetry. apply has_role_ext. intros row Hu Hr.
      unfold db'. simpl. rewrite list_elem_of_filter. split; [|by intros [_ ?]].
      intros Hin. split; [|done]. intros (_ & _ & Hq).
      apply bool_decide_eq_true in Hq. destruct Hother.
      unfold role_key in Hq. by subst.
  - intros row Hid Hkey Huser. unfold insert_user_role. rewrite Hpol. simpl.
    unfold table_insert_user_role.
    rewrite (bool_decide_eq_true_2 _ Hid). simpl.
    rewrite (bool_decide_eq_true_2 _ Hkey). simpl.
    by rewrite (bool_decide_eq_true_2 _ Huser).
Qed.

Lemma admin_grants_and_revokes_roles_witness :
  has_role (after (Authenticated Sample.root)
              (InsertRole (Sample.role_row "r5" Sample.alice admin))
              Sample.campus) (Some Sample.alice) admin = true
  ∧ has_role (delete_user_roles (Authenticated Sample.root) Sample.campus
                (fun row => bool_decide (role_key row = (Sample.bob, student))))
      (Some Sample.bob) student = false
  ∧ has_role (delete_user_roles (Authenticated Sample.root) Sample.campus
                (fun row => bool_decide (role_key row = (Sample.bob, student))))
      (Some Sample.alice) student = true.
Proof.
  destruct (admin_grants_and_revokes_roles (Authenticated Sample.root)
              Sample.campus eq_refl) as (Hgrant & Hrevoke & Hgoes).
  split; [|split].
  - unfold after, exec.
    rewrite (Hgoes (Sample.role_row "r5" Sample.alice admin))
      by compute_done.
    apply (Hgrant (Sample.role_row "r5" Sample.alice admin)).
    apply Hgoes; compute_done.
  - apply (Hrevoke Sample.bob student).
  - destruct (Hrevoke Sample.bob student) as [_ Hothers].
    rewrite Hothers by discriminate. reflexivity.
Defined.

Lemma anonymous_sessions_read_and_write_nothing_witness :
  after Anon (InsertComplaint (Sample.broken_ac "c5" Sample.alice 80))
    Sample.campus_with_complaints = Sample.campus_with_complaints
  ∧ after Anon (UpdateComplaints 80 (fun _ => true) (Sample.set_status closed))
      Sample.campus_with_complaints = Sample.campus_with_complaints
  ∧ after Anon (Remove "complaint-attachments" "a11ce/notes.pdf")
      Example.campus_with_objects = Example.campus_with_objects.
Proof.
  split; [|split].
  - apply (anonymous_sessions_read_and_write_nothing
             Sample.campus_with_complaints). reflexivity.
  - apply (anonymous_sessions_read_and_write_nothing
             Sample.campus_with_complaints). reflexivity.
  - apply (anonymous_sessions_read_and_write_nothing
             Example.campus_with_objects). reflexivity.
Defined.

